(** * HammerTime packet sniffer: the capture controller

    A shallow embedding of the C translation unit [src/PacketSniffer.c]
    (with the declarations of [include/PacketSniffer.h]) and the
    properties of its validators, of its per-packet callback and of the
    start / stop / status life cycle. Line numbers are those of
    [src/PacketSniffer.c]. The older [PacketSniffer.c] at the root of the
    repository, which has neither the lock nor the checks, is modelled
    apart.

    - [Module Validator]: the two pure checks, [is_valid_packet_length] and
      [is_valid_device_name].
    - [Module Sniffer]: the three file-level variables as a record, every
      straight-line segment of the C functions as a function on that record
      that also returns the calls it makes (engine calls, handler calls,
      diagnostics, lock releases), the C functions run by one thread as the
      composition of their segments, and a thread pool that interleaves the
      same segments.

    - [Module Legacy]: the older [PacketSniffer.c] at the root, for what
      it does with the handle, the handler and the length it reports.
    - [Module Protocol]: the order in which a session may use the engine,
      as a monitor on traces.

    The capture engine (libpcap) is external: whatever it answers is an
    input of the model, and every call made to it is recorded. *)

From Stdlib Require Import ZArith String Ascii List Bool Lia.
From stdpp Require Import base option list.

Local Open Scope Z_scope.

(** ** C integers and characters *)

(** [bpf_u_int32] read as [int]: the conversion every target of the program
    performs (two's complement wrap-around). *)
Definition int_of_u32 (u : Z) : Z :=
  if u <? 2 ^ 31 then u else u - 2 ^ 32.

(** The value of a [char] holding byte [c], [char] being signed as on the
    x86-64 and Apple arm64 targets. *)
Definition char_value (c : ascii) : Z :=
  let n := Z.of_N (N_of_ascii c) in
  if n <? 128 then n else n - 256.

(** The same byte read where [char] is unsigned. *)
Definition uchar_value (c : ascii) : Z := Z.of_N (N_of_ascii c).

(** A character constant ['x']. *)
Definition chr (c : ascii) : Z := char_value c.

(** A [const char *] argument is the characters stored from the pointer on;
    the string it denotes stops before the first NUL (a buffer listed without
    one is followed by its terminator). *)
Definition is_nul (c : ascii) : bool := (N_of_ascii c =? 0)%N.

Fixpoint strlen (s : string) : nat :=
  match s with
  | EmptyString => O
  | String c s' => if is_nul c then O else S (strlen s')
  end.

(** The characters [strlen] counts. *)
Fixpoint c_str (s : string) : list ascii :=
  match s with
  | EmptyString => []
  | String c s' => if is_nul c then [] else c :: c_str s'
  end.

Module Validator.

(** [#define MAX_PACKET_SIZE (64 * 1024)] *)
Definition MAX_PACKET_SIZE : Z := 64 * 1024.

(** [static inline bool is_valid_packet_length(int length)] *)
Definition is_valid_packet_length (length : Z) : bool :=
  (0 <? length) && (length <=? MAX_PACKET_SIZE).

(** The test of the [for] body of [is_valid_device_name], on the value of
    [char c]. *)
Definition is_device_char (c : Z) : bool :=
  ((chr "a" <=? c) && (c <=? chr "z"))
  || ((chr "A" <=? c) && (c <=? chr "Z"))
  || ((chr "0" <=? c) && (c <=? chr "9"))
  || (c =? chr ".") || (c =? chr "-") || (c =? chr "_").

(** [for (size_t i = ...; i < len; i++)] with [todo = len - i] iterations
    left; [device[i]] is read through [String.get]. *)
Fixpoint scan_device (device : string) (i todo : nat) : bool :=
  match todo with
  | O => true
  | S todo' =>
      match String.get i device with
      | Some c =>
          if negb (is_device_char (char_value c)) then false
          else scan_device device (S i) todo'
      | None => false
      end
  end.

(** [static bool is_valid_device_name(const char *device)]; [None] is the
    null pointer. *)
Definition is_valid_device_name (device : option string) : bool :=
  match device with
  | None => false
  | Some d =>
      let len := strlen d in
      if (len =? 0)%nat || (64 <? len)%nat then false
      else scan_device d 0 len
  end.

(** The alphabet of the specification: letters, digits, dot, dash and
    underscore. *)
Definition device_alphabet : list ascii :=
  list_ascii_of_string
    "abcdefghijklmnopqrstuvwxyzABCDEFGHIJKLMNOPQRSTUVWXYZ0123456789.-_".

(** What the specification asks of a device string. *)
Definition device_ok (d : string) : Prop :=
  (1 <= length (c_str d) <= 64)%nat
  /\ Forall (fun c => In c device_alphabet) (c_str d).

End Validator.

Module Sniffer.
Import Validator.

(** *** Types of [PacketSniffer.h] and of the engine *)

(** A non-null [pcap_t *]. *)
Definition pcap_t := nat.

(** A non-null [PacketHandler] (a function pointer). *)
Definition PacketHandler := nat.

Definition bytes := list Byte.byte.

Inductive SniffResult :=
| SNIFF_OK
| SNIFF_ERROR_NULL_PARAM
| SNIFF_ERROR_INVALID_DEVICE
| SNIFF_ERROR_ALREADY_RUNNING
| SNIFF_ERROR_PCAP_OPEN
| SNIFF_ERROR_NOT_RUNNING.

Definition SniffResult_code (r : SniffResult) : Z :=
  match r with
  | SNIFF_OK => 0
  | SNIFF_ERROR_NULL_PARAM => -1
  | SNIFF_ERROR_INVALID_DEVICE => -2
  | SNIFF_ERROR_ALREADY_RUNNING => -3
  | SNIFF_ERROR_PCAP_OPEN => -4
  | SNIFF_ERROR_NOT_RUNNING => -5
  end.

(** [struct pcap_pkthdr]: the two [bpf_u_int32] fields the program reads
    (the time stamp is never read). [len] is the length the frame had on
    the wire (the claimed length), [caplen] the number of bytes present
    in the buffer (the captured length). *)
Record pcap_pkthdr := { caplen : Z; len : Z }.

Definition wf_pkthdr (h : pcap_pkthdr) : Prop :=
  0 <= caplen h < 2 ^ 32 /\ 0 <= len h < 2 ^ 32.

(** *** The file-level variables

    [static pcap_t *handle], [static PacketHandler globalHandler],
    [static volatile bool is_running]; [None] is [NULL]. *)
Record state := {
  handle : option pcap_t;
  globalHandler : option PacketHandler;
  is_running : bool
}.

Definition initial_state : state :=
  {| handle := None; globalHandler := None; is_running := false |}.

Definition set_handle (h : option pcap_t) (g : state) : state :=
  {| handle := h; globalHandler := globalHandler g; is_running := is_running g |}.

Definition set_globalHandler (f : option PacketHandler) (g : state) : state :=
  {| handle := handle g; globalHandler := f; is_running := is_running g |}.

Definition set_is_running (b : bool) (g : state) : state :=
  {| handle := handle g; globalHandler := globalHandler g; is_running := b |}.

(** *** What a run of the code does to the outside *)

(** The [fprintf(stderr, ...)] lines. *)
Inductive diagnostic :=
| Device_is_null
| Handler_is_null
| Invalid_device_format
| Already_active
| Could_not_open (device : string)
| Invalid_packet_length (length : Z)
| Captured_less (caplen len : Z)
| Error_in_loop (text : string).

Inductive event :=
| Log (d : diagnostic)
(** [pthread_mutex_unlock(&state_mutex)]: the variables as the next
    holder of the lock finds them. *)
| Unlock (snapshot : state)
(** [pcap_open_live(device, BUFSIZ, 1, 1000, errbuf)] and its result. *)
| Open (device : string) (result : option pcap_t)
(** [pcap_loop(handle, -1, packet_callback, NULL)] is entered. *)
| Loop (h : option pcap_t)
| Break (h : pcap_t)
| Get_err (h : option pcap_t)
| Close (h : pcap_t)
(** [handler(packet, length)]. *)
| Deliver (f : PacketHandler) (packet : bytes) (length : Z).

Definition is_engine_call (e : event) : bool :=
  match e with
  | Open _ _ | Loop _ | Break _ | Get_err _ | Close _ => true
  | _ => false
  end.

Definition is_delivery (e : event) : bool :=
  match e with Deliver _ _ _ => true | _ => false end.

(** The engine calls, respectively the handler calls, among [es]. *)
Definition engine_calls (es : list event) : list event :=
  List.filter is_engine_call es.

Definition deliveries (es : list event) : list event :=
  List.filter is_delivery es.

(** *** [packet_callback] *)

(** Lines 22-43: the pointer and length checks and the read of
    [globalHandler] under the lock. [None]: the callback has returned;
    [Some (handler, packet, n)]: line 45 is next, with the local
    [handler] and the length [(int)header->caplen]. *)
Definition callback_check (header : option pcap_pkthdr) (packet : option bytes)
    (g : state) : option (option PacketHandler * bytes * Z) * state * list event :=
  match header, packet with
  | Some h, Some p =>
      if negb (is_valid_packet_length (int_of_u32 (len h))) then
        (None, g, [Log (Invalid_packet_length (int_of_u32 (len h)))])
      else
        let warning :=
          if caplen h <? len h then [Log (Captured_less (caplen h) (len h))]
          else [] in
        (Some (globalHandler g, p, int_of_u32 (caplen h)), g, warning ++ [Unlock g])
  | _, _ => (None, g, [])
  end.

(** Lines 45-48. *)
Definition callback_deliver (handler : option PacketHandler) (packet : bytes)
    (n : Z) (g : state) : state * list event :=
  match handler with
  | Some f => (g, [Deliver f packet n])
  | None => (g, [])
  end.

(** [static void packet_callback(u_char *args, const struct pcap_pkthdr
    *header, const u_char *packet)], run without interruption. *)
Definition packet_callback (header : option pcap_pkthdr) (packet : option bytes)
    (g : state) : state * list event :=
  match callback_check header packet g with
  | (None, g1, es) => (g1, es)
  | (Some (f, p, n), g1, es) =>
      let '(g2, es') := callback_deliver f p n g1 in (g2, es ++ es')
  end.

(** *** [start_sniffing], segment by segment *)

(** Lines 81-109: the parameter checks and the first critical section.
    [inl r]: the function returns [r]; [inr device]: line 112 is next. *)
Definition start_entry (device : option string) (handler : option PacketHandler)
    (g : state) : (SniffResult + string) * state * list event :=
  match device with
  | None => (inl SNIFF_ERROR_NULL_PARAM, g, [Log Device_is_null])
  | Some d =>
      match handler with
      | None => (inl SNIFF_ERROR_NULL_PARAM, g, [Log Handler_is_null])
      | Some f =>
          if negb (is_valid_device_name device) then
            (inl SNIFF_ERROR_INVALID_DEVICE, g, [Log Invalid_device_format])
          else if is_running g then
            (inl SNIFF_ERROR_ALREADY_RUNNING, g, [Unlock g; Log Already_active])
          else
            let g1 := set_globalHandler (Some f) g in
            (inr d, g1, [Unlock g1])
      end
  end.

(** Lines 112-115: [handle = pcap_open_live(...)], the engine answering
    [result]. The lock is not held. *)
Definition start_open (device : string) (result : option pcap_t) (g : state)
    : state * list event :=
  (set_handle result g, [Open device result]).

(** Lines 119-126: the clean-up after a failed open. *)
Definition start_open_failed (device : string) (g : state)
    : SniffResult * state * list event :=
  let g1 := set_is_running false (set_globalHandler None g) in
  (SNIFF_ERROR_PCAP_OPEN, g1, [Unlock g1; Log (Could_not_open device)]).

(** Lines 130-132. *)
Definition start_mark (g : state) : state * list event :=
  let g1 := set_is_running true g in (g1, [Unlock g1]).

(** Line 136, the call: [handle] is read and the loop entered. *)
Definition start_loop_call (g : state) : state * list event :=
  (g, [Loop (handle g)]).

(** Lines 139-160: the clean-up after the loop has returned [result];
    [errtext] is what [pcap_geterr] answers. *)
Definition start_cleanup (result : Z) (errtext : option string) (g : state)
    : SniffResult * state * list event :=
  let report :=
    if result =? -1 then
      Get_err (handle g) ::
      match errtext with Some t => [Log (Error_in_loop t)] | None => [] end
    else [] in
  let closing :=
    match handle g with Some h => [Close h] | None => [] end in
  let g1 := set_is_running false (set_globalHandler None (set_handle None g)) in
  (if (result =? 0) || (result =? -2) then SNIFF_OK else SNIFF_ERROR_PCAP_OPEN,
   g1, report ++ closing ++ [Unlock g1]).

(** *** [stop_sniffing] and [is_sniffing_active] *)

(** [SniffResult stop_sniffing(void)]: the guard
    [!is_running || handle == NULL] fails exactly when the flag is set and
    the handle is there. *)
Definition stop_sniffing (g : state) : SniffResult * state * list event :=
  match is_running g, handle g with
  | true, Some h => (SNIFF_OK, g, [Break h; Unlock g])
  | _, _ => (SNIFF_ERROR_NOT_RUNNING, g, [Unlock g])
  end.

(** [bool is_sniffing_active(void)]. *)
Definition is_sniffing_active (g : state) : bool * state * list event :=
  (is_running g && match handle g with Some _ => true | None => false end,
   g, [Unlock g]).

(** *** One thread running [start_sniffing] alone *)

(** What the engine does during one call of [start_sniffing]. *)
Record engine := {
  open_reply : option pcap_t;
  loop_feed : list (option pcap_pkthdr * option bytes);
  loop_reply : Z;
  geterr_reply : option string
}.

(** The loop calls [packet_callback] once per event of the feed. *)
Fixpoint pcap_loop (feed : list (option pcap_pkthdr * option bytes)) (g : state)
    : state * list event :=
  match feed with
  | [] => (g, [])
  | (header, packet) :: feed' =>
      let '(g1, es1) := packet_callback header packet g in
      let '(g2, es2) := pcap_loop feed' g1 in
      (g2, es1 ++ es2)
  end.

(** [SniffResult start_sniffing(const char *device, PacketHandler handler)]. *)
Definition start_sniffing (e : engine) (device : option string)
    (handler : option PacketHandler) (g : state)
    : SniffResult * state * list event :=
  match start_entry device handler g with
  | (inl r, g1, es1) => (r, g1, es1)
  | (inr d, g1, es1) =>
      let '(g2, es2) := start_open d (open_reply e) g1 in
      match handle g2 with
      | None =>
          let '(r, g3, es3) := start_open_failed d g2 in
          (r, g3, es1 ++ es2 ++ es3)
      | Some _ =>
          let '(g3, es3) := start_mark g2 in
          let '(g4, es4) := start_loop_call g3 in
          let '(g5, es5) := pcap_loop (loop_feed e) g4 in
          let '(r, g6, es6) := start_cleanup (loop_reply e) (geterr_reply e) g5 in
          (r, g6, es1 ++ es2 ++ es3 ++ es4 ++ es5 ++ es6)
      end
  end.

(** *** Threads *)

(** Where a thread stands in the code. *)
Inductive pc :=
| Call_start (device : option string) (handler : option PacketHandler)
| Start_open (device : string)
| Start_test (device : string)
| Start_open_failed (device : string)
| Start_mark
| Start_loop_call
| In_loop
| In_callback (handler : option PacketHandler) (packet : bytes) (length : Z)
| Start_cleanup (result : Z) (errtext : option string)
| Call_stop
| Call_is_active
| Returned (r : SniffResult)
| Returned_bool (b : bool).

(** What the engine contributes to a step. *)
Inductive reply :=
| Silent
| Opened (result : option pcap_t)
| Packet (header : option pcap_pkthdr) (packet : option bytes)
| Loop_returns (result : Z) (errtext : option string).

(** One segment of one thread. Every segment is either one critical
    section together with the thread-local code before it, or code that
    does not take the lock; [None]: the thread cannot move that way. *)
Definition thread_step (p : pc) (r : reply) (g : state)
    : option (pc * state * list event) :=
  match p, r with
  | Call_start device handler, Silent =>
      match start_entry device handler g with
      | (inl res, g1, es) => Some (Returned res, g1, es)
      | (inr d, g1, es) => Some (Start_open d, g1, es)
      end
  | Start_open d, Opened result =>
      let '(g1, es) := start_open d result g in Some (Start_test d, g1, es)
  | Start_test d, Silent =>
      match handle g with
      | None => Some (Start_open_failed d, g, [])
      | Some _ => Some (Start_mark, g, [])
      end
  | Start_open_failed d, Silent =>
      let '(res, g1, es) := start_open_failed d g in Some (Returned res, g1, es)
  | Start_mark, Silent =>
      let '(g1, es) := start_mark g in Some (Start_loop_call, g1, es)
  | Start_loop_call, Silent =>
      let '(g1, es) := start_loop_call g in Some (In_loop, g1, es)
  | In_loop, Packet header packet =>
      match callback_check header packet g with
      | (None, g1, es) => Some (In_loop, g1, es)
      | (Some (f, p, n), g1, es) => Some (In_callback f p n, g1, es)
      end
  | In_callback f p n, Silent =>
      let '(g1, es) := callback_deliver f p n g in Some (In_loop, g1, es)
  | In_loop, Loop_returns result errtext =>
      Some (Start_cleanup result errtext, g, [])
  | Start_cleanup result errtext, Silent =>
      let '(res, g1, es) := start_cleanup result errtext g in
      Some (Returned res, g1, es)
  | Call_stop, Silent =>
      let '(res, g1, es) := stop_sniffing g in Some (Returned res, g1, es)
  | Call_is_active, Silent =>
      let '(b, g1, es) := is_sniffing_active g in Some (Returned_bool b, g1, es)
  | _, _ => None
  end.

(** The process: the shared variables, the threads, and what has happened
    so far, each event with the index of the thread it belongs to. *)
Record world := {
  globals : state;
  threads : list pc;
  trace : list (nat * event)
}.

Definition step (tid : nat) (r : reply) (w : world) : option world :=
  match threads w !! tid with
  | None => None
  | Some p =>
      match thread_step p r (globals w) with
      | None => None
      | Some (p', g', es) =>
          Some {| globals := g';
                  threads := <[tid := p']> (threads w);
                  trace := trace w ++ map (pair tid) es |}
      end
  end.

(** A schedule: which thread moves, and what the engine answers it. *)
Fixpoint run (schedule : list (nat * reply)) (w : world) : option world :=
  match schedule with
  | [] => Some w
  | (tid, r) :: schedule' =>
      match step tid r w with
      | None => None
      | Some w' => run schedule' w'
      end
  end.

Definition boot (ts : list pc) : world :=
  {| globals := initial_state; threads := ts; trace := [] |}.

(** The steps of thread 0 for one event of the loop: the callback, and the
    call of the handler when the event got past the checks. *)
Definition packet_steps (hp : option pcap_pkthdr * option bytes)
    : list (nat * reply) :=
  (0%nat, Packet (fst hp) (snd hp)) ::
  match fst hp, snd hp with
  | Some h, Some _ =>
      if is_valid_packet_length (int_of_u32 (len h)) then [(0%nat, Silent)]
      else []
  | _, _ => []
  end.

(** The schedule of a call of [start_sniffing] that thread 0 runs alone
    from [g], the engine being [e]. *)
Definition solo_schedule (e : engine) (device : option string)
    (handler : option PacketHandler) (g : state) : list (nat * reply) :=
  (0%nat, Silent) ::
  match start_entry device handler g with
  | (inl _, _, _) => []
  | (inr _, _, _) =>
      (0%nat, Opened (open_reply e)) :: (0%nat, Silent) ::
      match open_reply e with
      | None => [(0%nat, Silent)]
      | Some _ =>
          [(0%nat, Silent); (0%nat, Silent)]
          ++ flat_map packet_steps (loop_feed e)
          ++ [(0%nat, Loop_returns (loop_reply e) (geterr_reply e));
              (0%nat, Silent)]
      end
  end.

(** *** Vocabulary of the properties *)

(** What [is_sniffing_active] answers in [g]. *)
Definition is_active (g : state) : bool := fst (fst (is_sniffing_active g)).

(** The handler and the handle are both there or both missing. *)
Definition paired (g : state) : Prop :=
  handle g = None <-> globalHandler g = None.

(** The handler is recorded, the engine is not open yet and the flag is
    not set: the variables between line 107 and the end of the open. *)
Definition opening (g : state) : Prop :=
  handle g = None /\ globalHandler g <> None /\ is_running g = false.

(** A thread that calls [stop_sniffing] or [is_sniffing_active]. *)
Definition is_observer (p : pc) : Prop :=
  p = Call_stop \/ p = Call_is_active.

(** The places of [start_sniffing] between the recording of the handler
    and the end of the open (its success, or the clean-up of its
    failure). *)
Definition in_open_phase (p : pc) : Prop :=
  match p with
  | Start_open _ | Start_test _ | Start_open_failed _ => True
  | _ => False
  end.

(** What the one thread that calls [start_sniffing] has made of the
    variables when it stands at [p]. *)
Definition start_inv (p : pc) (g : state) : Prop :=
  match p with
  | Call_start _ _ | Returned _ => g = initial_state
  | Start_open _ | Start_open_failed _ => opening g
  | Start_test _ => globalHandler g <> None /\ is_running g = false
  | Start_mark =>
      globalHandler g <> None /\ handle g <> None /\ is_running g = false
  | Start_loop_call | In_loop | In_callback _ _ _ | Start_cleanup _ _ =>
      globalHandler g <> None /\ handle g <> None
  | Call_stop | Call_is_active | Returned_bool _ => False
  end.

(** A thread that is calling, or has called, one of the two short
    operations. *)
Definition observer_pc (p : pc) : Prop :=
  match p with
  | Call_stop | Call_is_active | Returned _ | Returned_bool _ => True
  | _ => False
  end.

(** A release of the lock shows the pair, or the open phase. *)
Definition ok_event (e : event) : Prop :=
  match e with
  | Unlock s => paired s \/ opening s
  | _ => True
  end.

(** The pool of one caller of [start_sniffing] and observers. *)
Definition single_start (w : world) : Prop :=
  exists p rest,
    threads w = p :: rest
    /\ start_inv p (globals w)
    /\ Forall observer_pc rest
    /\ Forall (fun te => ok_event (snd te)) (trace w).

(** The handler calls of a trace. *)
Definition handler_calls (t : list (nat * event)) : list (nat * event) :=
  List.filter (fun te => is_delivery (snd te)) t.

(** *** Schedules used below *)

Definition en0 : option string := Some "en0"%string.

(** Two threads call [start_sniffing] at the same time: thread 0 with
    handler 7, thread 1 with handler 8. *)
Definition two_starts : list pc :=
  [Call_start en0 (Some 7%nat); Call_start en0 (Some 8%nat)].

(** Both pass the first critical section before either has opened the
    engine; then each opens, marks and enters its loop. *)
Definition race_schedule : list (nat * reply) :=
  [(0%nat, Silent); (1%nat, Silent);
   (0%nat, Opened (Some 1%nat)); (0%nat, Silent); (0%nat, Silent); (0%nat, Silent);
   (1%nat, Opened (Some 2%nat)); (1%nat, Silent); (1%nat, Silent); (1%nat, Silent)].

(** Thread 1 is handed a frame and reads the handler; the loop of thread 0
    fails and thread 0 cleans up and returns. *)
Definition teardown_schedule : list (nat * reply) :=
  [(1%nat, Packet (Some {| caplen := 60; len := 60 |}) (Some [Byte.x2a]));
   (0%nat, Loop_returns (-1) (Some "device went down"%string));
   (0%nat, Silent)].

(** A session is running in thread 0; thread 1 calls [start_sniffing],
    then thread 2 asks for the status, then thread 3 calls
    [start_sniffing] with the same arguments. *)
Definition busy_threads : list pc :=
  [Call_start en0 (Some 7%nat); Call_start en0 (Some 7%nat);
   Call_is_active; Call_start en0 (Some 7%nat)].

Definition busy_schedule : list (nat * reply) :=
  [(0%nat, Silent); (0%nat, Opened (Some 1%nat)); (0%nat, Silent);
   (0%nat, Silent); (0%nat, Silent);
   (1%nat, Silent); (2%nat, Silent); (3%nat, Silent)].

End Sniffer.

(** ** The older translation unit

    [PacketSniffer.c] at the root of the repository, with [PacketSniffer.h]
    beside it: the same three entry points without the lock, the checks and
    the result codes. Its two file-level variables are a record of their
    own; the calls it makes are recorded with the events of [Sniffer]. The
    callback dereferences [header] and passes [packet] on without a test,
    and [device] goes to the engine as it is: the model is of the calls
    with these three pointers set. *)

Module Legacy.
Import Sniffer.

(** [static pcap_t *handle], [static PacketHandler globalHandler]. *)
Record state := {
  handle : option pcap_t;
  globalHandler : option PacketHandler
}.

Definition initial_state : state :=
  {| handle := None; globalHandler := None |}.

(** [static void packet_callback(u_char *args, const struct pcap_pkthdr
    *header, const u_char *packet)]: the handler is given [header->len]. *)
Definition packet_callback (header : pcap_pkthdr) (packet : bytes) (g : state)
    : state * list event :=
  match globalHandler g with
  | Some f => (g, [Deliver f packet (int_of_u32 (len header))])
  | None => (g, [])
  end.

(** The loop calls [packet_callback] once per event of the feed. *)
Fixpoint pcap_loop (feed : list (pcap_pkthdr * bytes)) (g : state)
    : state * list event :=
  match feed with
  | [] => (g, [])
  | (header, packet) :: feed' =>
      let '(g1, es1) := packet_callback header packet g in
      let '(g2, es2) := pcap_loop feed' g1 in
      (g2, es1 ++ es2)
  end.

(** [void start_sniffing(const char *device, PacketHandler handler)], the
    engine answering [open_reply] to the open and feeding [feed] to the
    loop before it returns. *)
Definition start_sniffing (open_reply : option pcap_t)
    (feed : list (pcap_pkthdr * bytes)) (device : string)
    (handler : option PacketHandler) (g : state) : state * list event :=
  let g1 := {| handle := handle g; globalHandler := handler |} in
  let g2 := {| handle := open_reply; globalHandler := globalHandler g1 |} in
  match handle g2 with
  | None => (g2, [Open device open_reply; Log (Could_not_open device)])
  | Some _ =>
      let '(g3, es) := pcap_loop feed g2 in
      (g3, Open device open_reply :: Loop (handle g2) :: es)
  end.

(** [void stop_sniffing(void)]. *)
Definition stop_sniffing (g : state) : state * list event :=
  match handle g with
  | Some h =>
      ({| handle := None; globalHandler := globalHandler g |},
       [Break h; Close h])
  | None => (g, [])
  end.

End Legacy.

(** ** Vocabulary of the session properties *)

Module Protocol.
Import Validator Sniffer.

(** What a session hands to its handler for one event of the loop: the
    frame with its captured length when both pointers are set and the
    claimed length passes the check, nothing otherwise. *)
Definition accepted (f : PacketHandler)
    (hp : option pcap_pkthdr * option bytes) : list event :=
  match hp with
  | (Some h, Some p) =>
      if is_valid_packet_length (int_of_u32 (len h))
      then [Deliver f p (int_of_u32 (caplen h))]
      else []
  | _ => []
  end.

(** How far the use of the engine has come in a trace: nothing opened yet,
    a handle open, or everything over (the handle closed, or the open
    refused). *)
Inductive phase :=
| Not_opened
| Opened_on (h : pcap_t)
| Closed.

Definition handler_is (H : option PacketHandler) (f : PacketHandler) : bool :=
  match H with
  | Some f' => (f' =? f)%nat
  | None => false
  end.

(** One event of the trace of a session whose caller registered [H],
    checked against the phase: the engine is opened once, by thread 0;
    it is looped on, asked for its error and closed by thread 0, and
    cancelled by any thread, only on the open handle; the handler called
    is [H], by thread 0, while the handle is open; and a release of the
    lock that shows the flag set shows the open handle and [H]. *)
Definition monitor_step (H : option PacketHandler) (ph : phase)
    (te : nat * event) : option phase :=
  let '(tid, e) := te in
  match e with
  | Log _ => Some ph
  | Unlock s =>
      if is_running s then
        match ph, handle s, globalHandler s with
        | Opened_on h, Some h', Some f =>
            if (h =? h')%nat && handler_is H f then Some ph else None
        | _, _, _ => None
        end
      else Some ph
  | Open _ r =>
      match ph with
      | Not_opened =>
          if (tid =? 0)%nat then
            Some match r with Some h => Opened_on h | None => Closed end
          else None
      | _ => None
      end
  | Loop r | Get_err r =>
      match ph, r with
      | Opened_on h, Some h' =>
          if (tid =? 0)%nat && (h =? h')%nat then Some ph else None
      | _, _ => None
      end
  | Break h' =>
      match ph with
      | Opened_on h => if (h =? h')%nat then Some ph else None
      | _ => None
      end
  | Close h' =>
      match ph with
      | Opened_on h =>
          if (tid =? 0)%nat && (h =? h')%nat then Some Closed else None
      | _ => None
      end
  | Deliver f _ _ =>
      match ph with
      | Opened_on _ =>
          if (tid =? 0)%nat && handler_is H f then Some ph else None
      | _ => None
      end
  end.

Fixpoint monitor (H : option PacketHandler) (ph : phase)
    (t : list (nat * event)) : option phase :=
  match t with
  | [] => Some ph
  | te :: t' =>
      match monitor_step H ph te with
      | Some ph' => monitor H ph' t'
      | None => None
      end
  end.

(** The variables and the phase when the caller of [start_sniffing], who
    registered [H], stands at [p]. *)
Definition session_inv (H : option PacketHandler) (p : pc) (g : state)
    (ph : phase) : Prop :=
  match p with
  | Call_start _ f => f = H /\ g = initial_state /\ ph = Not_opened
  | Start_open _ =>
      handle g = None /\ globalHandler g = H /\ H <> None
      /\ is_running g = false /\ ph = Not_opened
  | Start_test _ =>
      globalHandler g = H /\ H <> None /\ is_running g = false
      /\ ph = match handle g with Some h => Opened_on h | None => Closed end
  | Start_open_failed _ =>
      handle g = None /\ is_running g = false /\ ph = Closed
  | Start_mark =>
      globalHandler g = H /\ H <> None /\ is_running g = false
      /\ exists h, handle g = Some h /\ ph = Opened_on h
  | Start_loop_call | In_loop | Start_cleanup _ _ =>
      globalHandler g = H /\ H <> None
      /\ exists h, handle g = Some h /\ ph = Opened_on h
  | In_callback f _ _ =>
      f = H /\ globalHandler g = H /\ H <> None
      /\ exists h, handle g = Some h /\ ph = Opened_on h
  | Returned _ => g = initial_state /\ (ph = Not_opened \/ ph = Closed)
  | Call_stop | Call_is_active | Returned_bool _ => False
  end.

(** The pool of one caller of [start_sniffing] and observers, its trace
    checked so far. *)
Definition session_ok (H : option PacketHandler) (w : world) : Prop :=
  exists p rest ph,
    threads w = p :: rest
    /\ Forall observer_pc rest
    /\ monitor H Not_opened (trace w) = Some ph
    /\ session_inv H p (globals w) ph.

(** No handle is closed in [t]. *)
Definition no_close (t : list (nat * event)) : Prop :=
  forall tid h, ~ In (tid, Close h) t.

(** *** A session with two observers

    Thread 0 captures on ["lo"] with handler 7; it is handed a frame of 60
    bytes and calls the handler; thread 1 finds the session active and
    thread 2 stops it; the loop returns -2 and thread 0 cleans up; thread
    3 finds the session inactive. *)
Definition demo_threads : list pc :=
  [Call_start (Some "lo"%string) (Some 7%nat); Call_is_active; Call_stop;
   Call_is_active].

Definition demo_schedule : list (nat * reply) :=
  [(0%nat, Silent); (0%nat, Opened (Some 1%nat)); (0%nat, Silent);
   (0%nat, Silent); (0%nat, Silent);
   (0%nat, Packet (Some {| caplen := 60; len := 60 |}) (Some [Byte.x2a]));
   (0%nat, Silent);
   (1%nat, Silent); (2%nat, Silent);
   (0%nat, Loop_returns (-2) None); (0%nat, Silent);
   (3%nat, Silent)].

Definition demo_observers : list pc :=
  [Call_is_active; Call_stop; Call_is_active].

(** Where that schedule leads. *)
Definition demo_world : world :=
  Eval vm_compute in
    match run demo_schedule (boot demo_threads) with
    | Some w => w
    | None => boot []
    end.

End Protocol.

(** * Properties *)

(** ** The validators *)

Module ValidatorFacts.
Import Validator.

Lemma length_c_str (d : string) : length (c_str d) = strlen d.
Proof.
  induction d as [|c d IH]; simpl; [reflexivity|].
  destruct (is_nul c); simpl; congruence.
Qed.

(** Below [strlen], indexing the buffer reads the string. *)
Lemma get_c_str (d : string) (i : nat) :
  (i < strlen d)%nat -> String.get i d = c_str d !! i.
Proof.
  revert i; induction d as [|c d IH]; simpl; intros i Hi; [lia|].
  destruct (is_nul c); simpl in *; [lia|].
  destruct i as [|i]; simpl; [reflexivity|].
  apply IH; lia.
Qed.

(** The loop is [forallb] over the characters from [i] on. *)
Lemma scan_device_forallb (d : string) (todo i : nat) :
  (i + todo = strlen d)%nat ->
  scan_device d i todo
  = forallb (fun c => is_device_char (char_value c)) (drop i (c_str d)).
Proof.
  revert i; induction todo as [|todo IH]; intros i Hi; simpl.
  - rewrite drop_ge; [reflexivity|]. rewrite length_c_str; lia.
  - rewrite get_c_str by lia.
    destruct (c_str d !! i) as [c|] eqn:Hc.
    + rewrite (drop_S _ _ _ Hc); simpl.
      destruct (is_device_char (char_value c)); simpl; [|reflexivity].
      apply IH; lia.
    + apply lookup_ge_None in Hc. rewrite length_c_str in Hc; lia.
Qed.

(** The character test, against the alphabet, byte by byte. *)
Lemma is_device_char_alphabet (c : ascii) :
  is_device_char (char_value c) = existsb (Ascii.eqb c) device_alphabet.
Proof.
  destruct c as [[] [] [] [] [] [] [] []]; vm_compute; reflexivity.
Qed.

Lemma is_device_char_In (c : ascii) :
  is_device_char (char_value c) = true <-> In c device_alphabet.
Proof.
  rewrite is_device_char_alphabet, existsb_exists. split.
  - intros (x & Hx & Heq). apply Ascii.eqb_eq in Heq. subst; assumption.
  - intros H. exists c. split; [assumption | apply Ascii.eqb_refl].
Qed.

(** The signedness of [char] does not matter to the test. *)
Lemma is_device_char_unsigned (c : ascii) :
  is_device_char (uchar_value c) = is_device_char (char_value c).
Proof.
  destruct c as [[] [] [] [] [] [] [] []]; vm_compute; reflexivity.
Qed.

(** C5. Device validation accepts the device string exactly when it has
    between 1 and 64 characters, each of them an ASCII letter, a digit,
    ['.'], ['-'] or ['_']; the null pointer, the empty string, a longer
    string and a string with any other character are rejected. The
    validation is a function of the string alone: it reads and writes no
    variable of the program. *)
Theorem is_valid_device_name_iff (device : option string) :
  is_valid_device_name device = true
  <-> exists d, device = Some d /\ device_ok d.
Proof.
  unfold device_ok, is_valid_device_name. destruct device as [d|].
  2:{ split; [discriminate | intros (d & H & _); discriminate]. }
  pose proof (length_c_str d) as Hlen.
  destruct (strlen d =? 0)%nat eqn:H0; cbn [orb].
  { apply Nat.eqb_eq in H0. split; [discriminate|].
    intros (d' & [= <-] & Hr & _). lia. }
  apply Nat.eqb_neq in H0.
  destruct (64 <? strlen d)%nat eqn:H64.
  { apply Nat.ltb_lt in H64. split; [discriminate|].
    intros (d' & [= <-] & Hr & _). lia. }
  apply Nat.ltb_ge in H64.
  rewrite scan_device_forallb by lia. rewrite drop_0.
  rewrite forallb_forall. split.
  - intros H. exists d. split; [reflexivity|]. split; [lia|].
    apply List.Forall_forall. intros c Hc. apply is_device_char_In. auto.
  - intros (d' & [= <-] & _ & Hall) c Hc.
    apply is_device_char_In. rewrite List.Forall_forall in Hall. auto.
Qed.

(** The examples of the specification. *)
Example device_en0 : is_valid_device_name (Some "en0"%string) = true.
Proof. reflexivity. Qed.

Example device_empty : is_valid_device_name (Some ""%string) = false.
Proof. reflexivity. Qed.

Example device_injection :
  is_valid_device_name (Some "eth0; rm -rf"%string) = false.
Proof. reflexivity. Qed.

Example device_65_chars :
  is_valid_device_name
    (Some "aaaaaaaaaaaaaaaaaaaaaaaaaaaaaaaaaaaaaaaaaaaaaaaaaaaaaaaaaaaaaaaaa"%string)
  = false.
Proof. reflexivity. Qed.

Example device_64_chars :
  is_valid_device_name
    (Some "aaaaaaaaaaaaaaaaaaaaaaaaaaaaaaaaaaaaaaaaaaaaaaaaaaaaaaaaaaaaaaaa"%string)
  = true.
Proof. reflexivity. Qed.

End ValidatorFacts.

(** ** The per-packet callback *)

Module CallbackFacts.
Import Validator Sniffer.

(** On a 32-bit unsigned field, the length check passes between 1 and
    64 KiB and nowhere else (a field of [2^31] or more reads as a negative
    [int]). *)
Lemma is_valid_packet_length_u32 (n : Z) :
  0 <= n < 2 ^ 32 ->
  is_valid_packet_length (int_of_u32 n) = true <-> 1 <= n <= 65536.
Proof.
  intros Hn. unfold is_valid_packet_length, int_of_u32, MAX_PACKET_SIZE.
  destruct (n <? 2 ^ 31) eqn:Hlt.
  - rewrite andb_true_iff, Z.ltb_lt, Z.leb_le. lia.
  - apply Z.ltb_ge in Hlt. rewrite andb_true_iff, Z.ltb_lt, Z.leb_le. lia.
Qed.

Lemma int_of_u32_small (n : Z) : n < 2 ^ 31 -> int_of_u32 n = n.
Proof.
  intros Hn. unfold int_of_u32.
  destruct (n <? 2 ^ 31) eqn:Hlt; [reflexivity|].
  apply Z.ltb_ge in Hlt. lia.
Qed.

(** The callback never writes the variables. *)
Lemma packet_callback_state (header : option pcap_pkthdr)
    (packet : option bytes) (g : state) :
  fst (packet_callback header packet g) = g.
Proof.
  unfold packet_callback, callback_check, callback_deliver.
  destruct header as [h|], packet as [p|]; try reflexivity.
  destruct (is_valid_packet_length _); simpl; [|reflexivity].
  destruct (globalHandler g); reflexivity.
Qed.

(** An event whose claimed length passes the check: the warning if it is
    truncated, the read of the handler, the call. *)
Lemma packet_callback_accepted (h : pcap_pkthdr) (p : bytes) (g : state) :
  is_valid_packet_length (int_of_u32 (len h)) = true ->
  packet_callback (Some h) (Some p) g
  = (g, (if caplen h <? len h then [Log (Captured_less (caplen h) (len h))]
         else [])
        ++ [Unlock g]
        ++ match globalHandler g with
           | Some f => [Deliver f p (int_of_u32 (caplen h))]
           | None => []
           end).
Proof.
  intros Hv. unfold packet_callback, callback_check, callback_deliver.
  rewrite Hv. cbn [negb].
  destruct (globalHandler g); rewrite <- List.app_assoc; reflexivity.
Qed.

Lemma packet_callback_rejected (h : pcap_pkthdr) (p : bytes) (g : state) :
  is_valid_packet_length (int_of_u32 (len h)) = false ->
  packet_callback (Some h) (Some p) g
  = (g, [Log (Invalid_packet_length (int_of_u32 (len h)))]).
Proof.
  intros Hv. unfold packet_callback, callback_check. rewrite Hv. reflexivity.
Qed.

Lemma deliveries_app (es es' : list event) :
  deliveries (es ++ es') = deliveries es ++ deliveries es'.
Proof. apply List.filter_app. Qed.

(** C3, as the code has it. The length that is checked is the claimed
    length [n] of the header, the length that is delivered is the
    captured length: an event with [n <= 0] or [n > 65536] is dropped and
    reaches no handler; an event with [1 <= n <= 65536] is handed once to
    the registered handler, with the captured length read as an [int];
    that length is the captured length itself and at most 65536 as soon
    as the captured length does not exceed the claimed one. *)
Theorem packet_callback_delivery (h : pcap_pkthdr) (p : bytes) (g : state) :
  wf_pkthdr h ->
  let out := packet_callback (Some h) (Some p) g in
  fst out = g
  /\ (len h <= 0 \/ 65536 < len h -> deliveries (snd out) = [])
  /\ (1 <= len h <= 65536 ->
      deliveries (snd out)
      = match globalHandler g with
        | Some f => [Deliver f p (int_of_u32 (caplen h))]
        | None => []
        end
      /\ (caplen h <= len h ->
          int_of_u32 (caplen h) = caplen h /\ caplen h <= 65536)).
Proof.
  intros [Hc Hl] out. subst out. split; [apply packet_callback_state|].
  split.
  - intros Hout.
    destruct (is_valid_packet_length (int_of_u32 (len h))) eqn:E.
    + apply (is_valid_packet_length_u32 (len h) Hl) in E. lia.
    + rewrite packet_callback_rejected by assumption. reflexivity.
  - intros Hin. rewrite packet_callback_accepted
      by (apply is_valid_packet_length_u32; assumption).
    split.
    + cbn [snd]. rewrite !deliveries_app.
      destruct (caplen h <? len h), (globalHandler g); reflexivity.
    + intros Hle. split; [apply int_of_u32_small|]; lia.
Qed.

Lemma packet_callback_delivery_witness :
  wf_pkthdr {| caplen := 60; len := 60 |}
  /\ let out := packet_callback (Some {| caplen := 60; len := 60 |})
                  (Some [Byte.x00])
                  {| handle := Some 1%nat; globalHandler := Some 7%nat;
                     is_running := true |} in
     fst out = {| handle := Some 1%nat; globalHandler := Some 7%nat;
                  is_running := true |}
     /\ (60 <= 0 \/ 65536 < 60 -> deliveries (snd out) = [])
     /\ (1 <= 60 <= 65536 ->
         deliveries (snd out) = [Deliver 7%nat [Byte.x00] (int_of_u32 60)]
         /\ (60 <= 60 -> int_of_u32 60 = 60 /\ 60 <= 65536)).
Proof.
  split; [unfold wf_pkthdr; simpl; lia|].
  apply (packet_callback_delivery {| caplen := 60; len := 60 |} [Byte.x00]
           {| handle := Some 1%nat; globalHandler := Some 7%nat;
              is_running := true |}).
  unfold wf_pkthdr; simpl; lia.
Defined.

(** C3 as stated fails whichever length of the event is meant. With a
    handler registered, a frame of 65549 bytes on the wire of which 8192
    were captured has a captured length within 1..65536 and is dropped;
    and a header announcing 100 bytes with a captured length of 70000 is
    delivered with length 70000. *)
Lemma packet_callback_checks_claimed_length :
  let g := {| handle := Some 1%nat; globalHandler := Some 7%nat;
              is_running := true |} in
  let jumbo := {| caplen := 8192; len := 65549 |} in
  let odd := {| caplen := 70000; len := 100 |} in
  (wf_pkthdr jumbo /\ 1 <= caplen jumbo <= 65536
   /\ deliveries (snd (packet_callback (Some jumbo) (Some [Byte.x00]) g)) = [])
  /\ (wf_pkthdr odd /\ 1 <= len odd <= 65536
      /\ deliveries (snd (packet_callback (Some odd) (Some [Byte.x00]) g))
         = [Deliver 7%nat [Byte.x00] 70000]
      /\ 65536 < 70000).
Proof.
  unfold wf_pkthdr; simpl. repeat split; try lia; reflexivity.
Qed.

(** C4, as the code has it. A truncated event (captured length below a
    claimed length that passes the check) is not dropped: the diagnostic
    is written and the event is still handed to the registered handler,
    with the captured length. Nothing is reported to any caller and the
    session goes on: the variables are unchanged and the thread is back
    inside the loop after the callback. *)
Theorem truncated_packet_is_delivered (h : pcap_pkthdr) (p : bytes) (g : state) :
  wf_pkthdr h ->
  caplen h < len h ->
  1 <= len h <= 65536 ->
  packet_callback (Some h) (Some p) g
  = (g, [Log (Captured_less (caplen h) (len h)); Unlock g]
        ++ match globalHandler g with
           | Some f => [Deliver f p (caplen h)]
           | None => []
           end)
  /\ thread_step In_loop (Packet (Some h) (Some p)) g
     = Some (In_callback (globalHandler g) p (caplen h), g,
             [Log (Captured_less (caplen h) (len h)); Unlock g])
  /\ forall g', thread_step (In_callback (globalHandler g) p (caplen h)) Silent g'
                = Some (In_loop, g',
                        match globalHandler g with
                        | Some f => [Deliver f p (caplen h)]
                        | None => []
                        end).
Proof.
  intros [Hc Hl] Hlt Hin.
  assert (Hv : is_valid_packet_length (int_of_u32 (len h)) = true)
    by (apply is_valid_packet_length_u32; assumption).
  assert (Hi : int_of_u32 (caplen h) = caplen h)
    by (apply int_of_u32_small; lia).
  assert (Hb : (caplen h <? len h) = true) by (apply Z.ltb_lt; assumption).
  split; [|split].
  - rewrite packet_callback_accepted by assumption. rewrite Hb, Hi. reflexivity.
  - unfold thread_step, callback_check. rewrite Hv, Hb, Hi. reflexivity.
  - intros g'. unfold thread_step, callback_deliver.
    destruct (globalHandler g); reflexivity.
Qed.

Lemma truncated_packet_is_delivered_witness :
  let h := {| caplen := 1024; len := 1500 |} in
  let g := {| handle := Some 1%nat; globalHandler := Some 7%nat;
              is_running := true |} in
  wf_pkthdr h /\ caplen h < len h /\ 1 <= len h <= 65536
  /\ packet_callback (Some h) (Some [Byte.x00]) g
     = (g, [Log (Captured_less 1024 1500); Unlock g; Deliver 7%nat [Byte.x00] 1024]).
Proof.
  intros h g.
  assert (Hw : wf_pkthdr h) by (unfold wf_pkthdr; simpl; lia).
  assert (Hlt : caplen h < len h) by (simpl; lia).
  assert (Hin : 1 <= len h <= 65536) by (simpl; lia).
  split; [exact Hw|]. split; [exact Hlt|]. split; [exact Hin|].
  exact (proj1 (truncated_packet_is_delivered h [Byte.x00] g Hw Hlt Hin)).
Defined.

(** C4 as stated fails: with a handler registered, a frame of 1500 bytes
    of which 1024 were captured is handed to the handler. *)
Lemma truncated_packet_reaches_handler :
  let h := {| caplen := 1024; len := 1500 |} in
  let g := {| handle := Some 1%nat; globalHandler := Some 7%nat;
              is_running := true |} in
  caplen h < len h
  /\ deliveries (snd (packet_callback (Some h) (Some [Byte.x00]) g))
     = [Deliver 7%nat [Byte.x00] 1024].
Proof. simpl. split; [lia | reflexivity]. Qed.

(** C10. When the engine passes a null header or a null frame pointer,
    the callback returns at once: it makes no call at all (no handler, no
    engine call, no diagnostic, no locking) and the variables are what
    they were; the thread stays inside the loop. *)
Theorem packet_callback_null_pointer (header : option pcap_pkthdr)
    (packet : option bytes) (g : state) :
  header = None \/ packet = None ->
  packet_callback header packet g = (g, [])
  /\ thread_step In_loop (Packet header packet) g = Some (In_loop, g, []).
Proof.
  unfold thread_step, packet_callback, callback_check.
  intros [-> | ->]; [|destruct header]; split; reflexivity.
Qed.

Lemma packet_callback_null_pointer_witness :
  let g := {| handle := Some 1%nat; globalHandler := Some 7%nat;
              is_running := true |} in
  (@None pcap_pkthdr = None \/ Some [Byte.x00] = @None bytes)
  /\ packet_callback None (Some [Byte.x00]) g = (g, []).
Proof.
  intros g. split; [left; reflexivity|].
  exact (proj1 (packet_callback_null_pointer None (Some [Byte.x00]) g
                  (or_introl eq_refl))).
Defined.

End CallbackFacts.

(** ** The life cycle, one call at a time *)

Module LifecycleFacts.
Import Validator Sniffer.

(** C7. In a state where the status is inactive, [stop_sniffing] answers
    [SNIFF_ERROR_NOT_RUNNING], calls nothing of the engine and changes no
    variable; where the status is active it answers [SNIFF_OK] having
    made one engine call, the cancel signal on the current handle, and
    still changes no variable: handle, handler and flag are as before and
    the handle is not closed. *)
Theorem stop_sniffing_frame (g : state) :
  (is_active g = false ->
   stop_sniffing g = (SNIFF_ERROR_NOT_RUNNING, g, [Unlock g])
   /\ engine_calls (snd (stop_sniffing g)) = [])
  /\ (is_active g = true ->
      exists h, handle g = Some h
                /\ stop_sniffing g = (SNIFF_OK, g, [Break h; Unlock g])
                /\ engine_calls (snd (stop_sniffing g)) = [Break h]).
Proof.
  unfold stop_sniffing, is_active, is_sniffing_active.
  destruct g as [[h|] f [|]]; simpl; split; intros H;
    try discriminate H; eauto.
Qed.

Lemma stop_sniffing_frame_witness :
  let g := {| handle := Some 1%nat; globalHandler := Some 7%nat;
              is_running := true |} in
  (is_active initial_state = false
   /\ stop_sniffing initial_state
      = (SNIFF_ERROR_NOT_RUNNING, initial_state, [Unlock initial_state])
   /\ engine_calls (snd (stop_sniffing initial_state)) = [])
  /\ (is_active g = true
      /\ exists h, handle g = Some h
                   /\ stop_sniffing g = (SNIFF_OK, g, [Break h; Unlock g])
                   /\ engine_calls (snd (stop_sniffing g)) = [Break h]).
Proof.
  intros g. split.
  - split; [reflexivity|].
    exact (proj1 (stop_sniffing_frame initial_state) eq_refl).
  - split; [reflexivity|].
    exact (proj2 (stop_sniffing_frame g) eq_refl).
Defined.

(** C9. A call that gets past the parameter checks and the state check
    and whose open fails: the handler had been recorded (the first
    release of the lock shows it), the open was attempted once, and the
    call returns [SNIFF_ERROR_PCAP_OPEN] with the handler cleared, no
    handle and the flag false. *)
Theorem start_sniffing_open_failure (e : engine) (d : string)
    (f : PacketHandler) (g : state) :
  is_valid_device_name (Some d) = true ->
  is_running g = false ->
  open_reply e = None ->
  start_sniffing e (Some d) (Some f) g
  = (SNIFF_ERROR_PCAP_OPEN, initial_state,
     [Unlock (set_globalHandler (Some f) g); Open d None;
      Unlock initial_state; Log (Could_not_open d)]).
Proof.
  intros Hd Hr Ho. unfold start_sniffing, start_entry.
  rewrite Hd, Hr, Ho. reflexivity.
Qed.

Lemma start_sniffing_open_failure_witness :
  let e := {| open_reply := None; loop_feed := []; loop_reply := 0;
              geterr_reply := None |} in
  is_valid_device_name (Some "en0"%string) = true
  /\ is_running initial_state = false
  /\ open_reply e = None
  /\ start_sniffing e (Some "en0"%string) (Some 7%nat) initial_state
     = (SNIFF_ERROR_PCAP_OPEN, initial_state,
        [Unlock (set_globalHandler (Some 7%nat) initial_state);
         Open "en0" None; Unlock initial_state; Log (Could_not_open "en0")]).
Proof.
  intros e.
  split; [reflexivity|]. split; [reflexivity|]. split; [reflexivity|].
  exact (start_sniffing_open_failure e "en0" 7%nat initial_state
           eq_refl eq_refl eq_refl).
Defined.

Lemma pcap_loop_state (feed : list (option pcap_pkthdr * option bytes))
    (g : state) :
  fst (pcap_loop feed g) = g.
Proof.
  revert g; induction feed as [|[header packet] feed IH]; intros g; simpl;
    [reflexivity|].
  pose proof (CallbackFacts.packet_callback_state header packet g) as Hc.
  destruct (packet_callback header packet g) as [g1 es1]. simpl in Hc. subst g1.
  specialize (IH g). destruct (pcap_loop feed g) as [g2 es2]. exact IH.
Qed.

(** A call that passes the checks attempts the open. *)
Lemma start_sniffing_attempts_open (e : engine) (d : string)
    (f : PacketHandler) (g : state) :
  is_valid_device_name (Some d) = true ->
  is_running g = false ->
  In (Open d (open_reply e)) (snd (start_sniffing e (Some d) (Some f) g)).
Proof.
  intros Hd Hr. unfold start_sniffing, start_entry. rewrite Hd, Hr.
  cbn [negb start_open set_handle handle].
  destruct (open_reply e) as [h|].
  - cbn [start_mark start_loop_call].
    destruct (pcap_loop _ _) as [g5 es5].
    destruct (start_cleanup _ _ g5) as [[r g6] es6].
    cbn [snd]. apply in_or_app. right. left. reflexivity.
  - cbn [start_open_failed snd]. apply in_or_app. right. left. reflexivity.
Qed.

(** C6, as the code has it. A call that returns from the open-failure
    path or after its loop has ended (the results [SNIFF_ERROR_PCAP_OPEN]
    and [SNIFF_OK]) leaves no handle, no handler and the flag false; the
    status is then inactive, and a further call with the same arguments
    gets past the state check and attempts the open. A call that returns
    [SNIFF_ERROR_NULL_PARAM], [SNIFF_ERROR_INVALID_DEVICE] or
    [SNIFF_ERROR_ALREADY_RUNNING] has called nothing of the engine and
    leaves every variable as it found it: the state stays inactive if it
    was, and stays active if a session was running (the last result is
    given only then). *)
Theorem start_sniffing_exit_state (e : engine) (device : option string)
    (handler : option PacketHandler) (g : state) :
  let '(r, g', es) := start_sniffing e device handler g in
  match r with
  | SNIFF_ERROR_NULL_PARAM | SNIFF_ERROR_INVALID_DEVICE =>
      g' = g /\ engine_calls es = []
  | SNIFF_ERROR_ALREADY_RUNNING =>
      g' = g /\ engine_calls es = [] /\ is_running g = true
  | SNIFF_OK | SNIFF_ERROR_PCAP_OPEN =>
      g' = initial_state
      /\ is_active g' = false
      /\ exists d,
          device = Some d
          /\ forall e', In (Open d (open_reply e'))
                           (snd (start_sniffing e' device handler g'))
  | SNIFF_ERROR_NOT_RUNNING => False
  end.
Proof.
  destruct device as [d|]; [|simpl; auto].
  destruct handler as [f|]; [|simpl; auto].
  destruct (is_valid_device_name (Some d)) eqn:Hd.
  2:{ unfold start_sniffing, start_entry. rewrite Hd. simpl. auto. }
  destruct (is_running g) eqn:Hr.
  { unfold start_sniffing, start_entry. rewrite Hd, Hr. simpl. auto. }
  assert (Hnext : exists d0, Some d = Some d0
            /\ forall e', In (Open d0 (open_reply e'))
                     (snd (start_sniffing e' (Some d) (Some f) initial_state))).
  { exists d. split; [reflexivity|]. intros e'.
    apply start_sniffing_attempts_open; [assumption | reflexivity]. }
  destruct (start_sniffing e (Some d) (Some f) g) as [[r g'] es] eqn:E.
  unfold start_sniffing, start_entry in E. rewrite Hd, Hr in E.
  cbn [negb start_open set_handle handle] in E.
  destruct (open_reply e) as [h|].
  - cbn [start_mark start_loop_call] in E.
    pose proof (pcap_loop_state (loop_feed e)
                  (set_is_running true
                     (set_handle (Some h) (set_globalHandler (Some f) g))))
      as Hloop.
    destruct (pcap_loop _ _) as [g5 es5]. simpl in Hloop. subst g5.
    unfold start_cleanup in E. injection E as <- <- <-.
    destruct ((loop_reply e =? 0) || (loop_reply e =? -2));
      (split; [reflexivity | split; [reflexivity | exact Hnext]]).
  - cbn [start_open_failed] in E. injection E as <- <- <-.
    split; [reflexivity | split; [reflexivity | exact Hnext]].
Qed.

(** C6 as stated fails on the already-running path. While the session
    of thread 0 is inside its loop, the call of thread 1 returns
    [SNIFF_ERROR_ALREADY_RUNNING]; the status asked next by thread 2 is
    active, and the further call of thread 3, with the same valid
    arguments, is rejected in the same way. *)
Lemma start_rejected_leaves_session_active :
  option_map (fun w => (threads w, globals w))
    (run busy_schedule (boot busy_threads))
  = Some ([In_loop; Returned SNIFF_ERROR_ALREADY_RUNNING; Returned_bool true;
           Returned SNIFF_ERROR_ALREADY_RUNNING],
          {| handle := Some 1%nat; globalHandler := Some 7%nat;
             is_running := true |}).
Proof. vm_compute. reflexivity. Qed.

End LifecycleFacts.

(** ** Threads *)

Module ConcurrencyFacts.
Import Validator Sniffer.

Lemma run_app (s1 s2 : list (nat * reply)) (w : world) :
  run (s1 ++ s2) w
  = match run s1 w with Some w' => run s2 w' | None => None end.
Proof.
  revert w; induction s1 as [|[tid r] s1 IH]; intros w; simpl; [reflexivity|].
  destruct (step tid r w); [apply IH | reflexivity].
Qed.

(** *** A call that runs alone

    The thread pool runs the same segments as [start_sniffing]: a thread
    that is scheduled alone ends with the result, the variables and the
    calls of the function. *)

Lemma run_packet_steps (hp : option pcap_pkthdr * option bytes) (g : state)
    (tr : list (nat * event)) :
  run (packet_steps hp) {| globals := g; threads := [In_loop]; trace := tr |}
  = Some {| globals := g; threads := [In_loop];
            trace := tr ++ map (pair 0%nat)
                            (snd (packet_callback (fst hp) (snd hp) g)) |}.
Proof.
  destruct hp as [[h|] [p|]];
    unfold packet_steps, packet_callback, callback_check, callback_deliver;
    cbn [fst snd]; try reflexivity.
  destruct (is_valid_packet_length (int_of_u32 (len h))) eqn:E;
    cbn; unfold callback_check, callback_deliver; rewrite E; cbn;
    [|reflexivity].
  destruct (globalHandler g); cbn;
    rewrite ?map_app, <- ?List.app_assoc, ?app_nil_r; reflexivity.
Qed.

Lemma run_feed (feed : list (option pcap_pkthdr * option bytes)) (g : state)
    (tr : list (nat * event)) :
  run (flat_map packet_steps feed)
    {| globals := g; threads := [In_loop]; trace := tr |}
  = Some {| globals := g; threads := [In_loop];
            trace := tr ++ map (pair 0%nat) (snd (pcap_loop feed g)) |}.
Proof.
  revert tr; induction feed as [|[header packet] feed IH]; intros tr.
  - simpl. rewrite app_nil_r. reflexivity.
  - cbn [flat_map pcap_loop]. rewrite run_app, run_packet_steps, IH.
    cbn [fst snd].
    pose proof (CallbackFacts.packet_callback_state header packet g) as Hc.
    destruct (packet_callback header packet g) as [g1 es1].
    simpl in Hc. subst g1.
    destruct (pcap_loop feed g) as [g2 es2].
    cbn [snd]. rewrite map_app, List.app_assoc. reflexivity.
Qed.

Lemma solo_run_is_start_sniffing (e : engine) (device : option string)
    (handler : option PacketHandler) (g : state) :
  run (solo_schedule e device handler g)
    {| globals := g; threads := [Call_start device handler]; trace := [] |}
  = let '(r, g', es) := start_sniffing e device handler g in
    Some {| globals := g'; threads := [Returned r];
            trace := map (pair 0%nat) es |}.
Proof.
  unfold solo_schedule, start_sniffing.
  destruct (start_entry device handler g) as [[[r|d] g1] es1] eqn:E.
  - cbn. rewrite E. reflexivity.
  - cbn [run step threads globals lookup list_lookup thread_step].
    rewrite E. cbn [insert list_insert trace app].
    unfold start_open. cbn.
    destruct (open_reply e) as [h|]; cbn.
    + rewrite run_app, run_feed. cbn.
      pose proof (LifecycleFacts.pcap_loop_state (loop_feed e)
                    (set_is_running true (set_handle (Some h) g1))) as Hloop.
      destruct (pcap_loop _ _) as [g5 es5]. simpl in Hloop. subst g5. cbn.
      do 2 f_equal.
      repeat (rewrite ?map_app, <- ?List.app_assoc; cbn [map app]).
      reflexivity.
    + do 2 f_equal.
      repeat (rewrite ?map_app, ?app_nil_r, <- ?List.app_assoc; cbn [map app]).
      reflexivity.
Qed.

(** *** One caller of [start_sniffing] *)

Lemma initial_state_paired : paired initial_state.
Proof. unfold paired; simpl; tauto. Qed.

Lemma start_inv_ok (p : pc) (g : state) :
  start_inv p g -> paired g \/ opening g.
Proof.
  unfold paired, opening.
  destruct p; simpl; intros H; try contradiction;
    try (subst g; left; simpl; tauto);
    try (right; exact H);
    destruct (handle g) eqn:Hh, (globalHandler g) eqn:Hf;
    intuition congruence.
Qed.

Lemma start_inv_outside_open (p : pc) (g : state) :
  start_inv p g -> ~ in_open_phase p -> paired g.
Proof.
  unfold paired.
  destruct p; simpl; intros H Hn; try contradiction; try tauto;
    try (subst g; simpl; tauto);
    destruct (handle g) eqn:Hh, (globalHandler g) eqn:Hf;
    intuition congruence.
Qed.

Ltac step_inversion H :=
  repeat match type of H with
         | Some _ = Some _ => injection H as <- <- <-
         | None = Some _ => discriminate H
         | context [match ?r with Silent => _ | _ => _ end] => destruct r
         | context [match ?x with Some _ => _ | None => _ end] =>
             let E := fresh "E" in destruct x eqn:E
         | context [if ?b then _ else _] =>
             let E := fresh "E" in destruct b eqn:E
         end.

Ltac each_event :=
  repeat first [ apply List.Forall_nil
               | apply List.Forall_cons
               | apply Forall_app; split ];
  try exact I.

Ltac shows_pair :=
  left; unfold paired; simpl; intuition congruence.

Ltac shows_opening :=
  right; unfold opening; simpl; intuition congruence.

(** The caller of [start_sniffing] keeps [start_inv], and what it
    releases is the pair or the open phase. *)
Lemma thread_step_start (p p' : pc) (r : reply) (g g' : state)
    (es : list event) :
  start_inv p g ->
  thread_step p r g = Some (p', g', es) ->
  start_inv p' g' /\ Forall ok_event es.
Proof.
  intros Hinv Hstep. destruct p; simpl in Hinv; try contradiction.
  - (* Call_start *)
    subst g. unfold thread_step, start_entry in Hstep.
    step_inversion Hstep; simpl; (split; [|each_event]);
      try reflexivity; try shows_pair; try shows_opening.
    unfold opening; simpl; intuition congruence.
  - (* Start_open *)
    unfold thread_step, start_open in Hstep. destruct Hinv as (Hh & Hf & Hr).
    step_inversion Hstep; simpl; (split; [auto | each_event]).
  - (* Start_test *)
    destruct Hinv as (Hf & Hr). unfold thread_step in Hstep.
    step_inversion Hstep; simpl; unfold opening;
      (split; [|each_event]); intuition congruence.
  - (* Start_open_failed *)
    unfold thread_step, start_open_failed in Hstep.
    destruct Hinv as (Hh & Hf & Hr).
    step_inversion Hstep; simpl.
    unfold set_is_running, set_globalHandler; simpl. rewrite Hh.
    split; [reflexivity | each_event]. shows_pair.
  - (* Start_mark *)
    unfold thread_step, start_mark in Hstep.
    destruct Hinv as (Hf & Hh & Hr).
    step_inversion Hstep; simpl. split; [auto | each_event]. shows_pair.
  - (* Start_loop_call *)
    unfold thread_step, start_loop_call in Hstep.
    step_inversion Hstep; simpl. split; [auto | each_event].
  - (* In_loop *)
    destruct Hinv as (Hf & Hh).
    unfold thread_step, callback_check in Hstep.
    step_inversion Hstep; simpl; (split; [auto|]);
      try destruct (caplen _ <? len _); each_event; shows_pair.
  - (* In_callback *)
    unfold thread_step, callback_deliver in Hstep.
    step_inversion Hstep; simpl; (split; [auto | each_event]).
  - (* Start_cleanup *)
    unfold thread_step, start_cleanup in Hstep.
    step_inversion Hstep.
    simpl. split; [reflexivity|].
    destruct (result =? -1), errtext, (handle g); each_event; shows_pair.
  - (* Returned *)
    discriminate Hstep.
Qed.

(** An observer writes nothing, delivers nothing, and what it releases
    is what it found. *)
Lemma thread_step_observer (q q' : pc) (r : reply) (g g' : state)
    (es : list event) :
  observer_pc q ->
  thread_step q r g = Some (q', g', es) ->
  g' = g /\ observer_pc q'
  /\ (ok_event (Unlock g) -> Forall ok_event es)
  /\ deliveries es = [].
Proof.
  intros Hq Hstep. destruct q; simpl in Hq; try contradiction.
  - unfold thread_step, stop_sniffing in Hstep.
    destruct r; try discriminate Hstep.
    destruct (is_running g), (handle g); injection Hstep as <- <- <-;
      simpl; repeat split; auto; intros Hok; repeat constructor; exact Hok.
  - unfold thread_step, is_sniffing_active in Hstep.
    destruct r; try discriminate Hstep. injection Hstep as <- <- <-.
    simpl; repeat split; auto; intros Hok; repeat constructor; exact Hok.
  - discriminate Hstep.
  - discriminate Hstep.
Qed.

Lemma step_single_start (tid : nat) (r : reply) (w w' : world) :
  single_start w -> step tid r w = Some w' -> single_start w'.
Proof.
  intros (p & rest & Hth & Hinv & Hobs & Htr) Hstep.
  unfold step in Hstep. rewrite Hth in Hstep.
  destruct tid as [|tid]; simpl in Hstep.
  - destruct (thread_step p r (globals w)) as [[[p' g'] es]|] eqn:E;
      [|discriminate Hstep].
    injection Hstep as <-.
    destruct (thread_step_start _ _ _ _ _ _ Hinv E) as (Hinv' & Hes).
    exists p', rest. simpl. repeat split; auto.
    apply Forall_app. split; [assumption|].
    apply Forall_map. exact Hes.
  - destruct (rest !! tid) as [q|] eqn:Hq; [|discriminate Hstep].
    destruct (thread_step q r (globals w)) as [[[q' g'] es]|] eqn:E;
      [|discriminate Hstep].
    injection Hstep as <-.
    destruct (thread_step_observer _ _ _ _ _ _ (Forall_lookup_1 _ _ _ _ Hobs Hq) E)
      as (-> & Hq' & Hes & _).
    exists p, (<[tid := q']> rest). simpl. repeat split; auto.
    + apply Forall_insert; assumption.
    + apply Forall_app. split; [assumption|].
      apply Forall_map. apply Hes. simpl. apply (start_inv_ok p). assumption.
Qed.

Lemma run_single_start (schedule : list (nat * reply)) (w w' : world) :
  single_start w -> run schedule w = Some w' -> single_start w'.
Proof.
  revert w; induction schedule as [|[tid r] schedule IH]; intros w Hw Hrun;
    simpl in Hrun.
  - injection Hrun as <-. assumption.
  - destruct (step tid r w) as [w1|] eqn:E; [|discriminate Hrun].
    eapply IH; [|eassumption]. eapply step_single_start; eassumption.
Qed.

Lemma boot_single_start (device : option string)
    (handler : option PacketHandler) (observers : list pc) :
  Forall is_observer observers ->
  single_start (boot (Call_start device handler :: observers)).
Proof.
  intros Hobs. exists (Call_start device handler), observers. simpl.
  repeat split; auto.
  eapply Forall_impl; [exact Hobs|]. intros q [-> | ->]; exact I.
Qed.

(** C2, as the code has it. Take one thread that calls [start_sniffing]
    and any number of threads that call [stop_sniffing] or
    [is_sniffing_active], interleaved in any way, the engine answering
    anything. At every release of the lock, and in the variables as they
    stand, the handler and the handle are both there or both missing, or
    else the call is in its open phase: the handler is recorded, the
    handle is still missing and the flag is false. Outside the open phase
    of [start_sniffing] (from the release of line 109 to the success of
    the open or the clean-up of its failure) the two are paired. *)
Theorem pairing_outside_open_phase (device : option string)
    (handler : option PacketHandler) (observers : list pc)
    (schedule : list (nat * reply)) (w : world) :
  Forall is_observer observers ->
  run schedule (boot (Call_start device handler :: observers)) = Some w ->
  (forall tid s, In (tid, Unlock s) (trace w) -> paired s \/ opening s)
  /\ (paired (globals w) \/ opening (globals w))
  /\ (forall p, threads w !! 0%nat = Some p ->
                ~ in_open_phase p -> paired (globals w)).
Proof.
  intros Hobs Hrun.
  destruct (run_single_start _ _ _ (boot_single_start device handler _ Hobs) Hrun)
    as (p & rest & Hth & Hinv & _ & Htr).
  split; [|split].
  - intros tid s Hin. rewrite List.Forall_forall in Htr.
    exact (Htr _ Hin).
  - exact (start_inv_ok _ _ Hinv).
  - intros p0 Hp0 Hout. rewrite Hth in Hp0. injection Hp0 as <-.
    exact (start_inv_outside_open _ _ Hinv Hout).
Qed.

Lemma pairing_outside_open_phase_witness :
  Forall is_observer [Call_is_active; Call_stop]
  /\ exists w,
      run [(0%nat, Silent); (1%nat, Silent); (0%nat, Opened (Some 1%nat));
           (0%nat, Silent); (0%nat, Silent); (2%nat, Silent)]
        (boot [Call_start en0 (Some 7%nat); Call_is_active; Call_stop])
      = Some w
      /\ threads w = [Start_loop_call; Returned_bool false; Returned SNIFF_OK]
      /\ (forall tid s, In (tid, Unlock s) (trace w) -> paired s \/ opening s)
      /\ (paired (globals w) \/ opening (globals w))
      /\ (forall p, threads w !! 0%nat = Some p ->
                    ~ in_open_phase p -> paired (globals w)).
Proof.
  assert (Hobs : Forall is_observer [Call_is_active; Call_stop]).
  { apply List.Forall_cons; [right; reflexivity|].
    apply List.Forall_cons; [left; reflexivity|]. apply List.Forall_nil. }
  split; [exact Hobs|].
  eexists. split; [vm_compute; reflexivity|]. split; [reflexivity|].
  apply (pairing_outside_open_phase en0 (Some 7%nat) [Call_is_active; Call_stop]
           [(0%nat, Silent); (1%nat, Silent); (0%nat, Opened (Some 1%nat));
            (0%nat, Silent); (0%nat, Silent); (2%nat, Silent)]);
    [exact Hobs | vm_compute; reflexivity].
Defined.

(** C2 as stated fails at the first release of the lock in
    [start_sniffing] (line 109): the handler is recorded and there is no
    handle yet. *)
Lemma handler_recorded_before_open :
  option_map trace (run [(0%nat, Silent)] (boot [Call_start en0 (Some 7%nat)]))
  = Some [(0%nat, Unlock {| handle := None; globalHandler := Some 7%nat;
                           is_running := false |})]
  /\ ~ paired {| handle := None; globalHandler := Some 7%nat;
                 is_running := false |}.
Proof.
  split; [vm_compute; reflexivity|].
  unfold paired; simpl. intros [H _]. discriminate (H eq_refl).
Qed.

(** C1 fails on the code. Two threads call [start_sniffing] together;
    the flag is only set after the open, so the second call, entering its
    critical section before the first has set the flag, is not rejected:
    both record their handler, both open the engine, both set the flag
    and both enter a capture loop. Neither returns
    [SNIFF_ERROR_ALREADY_RUNNING]. *)
Theorem concurrent_starts_both_open :
  run race_schedule (boot two_starts)
  = Some
      {| globals := {| handle := Some 2%nat; globalHandler := Some 8%nat;
                       is_running := true |};
         threads := [In_loop; In_loop];
         trace :=
           [(0%nat, Unlock {| handle := None; globalHandler := Some 7%nat;
                             is_running := false |});
            (1%nat, Unlock {| handle := None; globalHandler := Some 8%nat;
                             is_running := false |});
            (0%nat, Open "en0" (Some 1%nat));
            (0%nat, Unlock {| handle := Some 1%nat; globalHandler := Some 8%nat;
                             is_running := true |});
            (0%nat, Loop (Some 1%nat));
            (1%nat, Open "en0" (Some 2%nat));
            (1%nat, Unlock {| handle := Some 2%nat; globalHandler := Some 8%nat;
                             is_running := true |});
            (1%nat, Loop (Some 2%nat))] |}.
Proof. vm_compute. reflexivity. Qed.

(** C8 fails on the code, through the race of two concurrent calls of
    [start_sniffing]. Once both are inside their loops, thread 1 is handed
    a frame and reads the handler; the loop of thread 0 ends and thread 0
    tears the session down and returns: no handle, no handler, flag false,
    status inactive, and no handler called so far. The next step of
    thread 1 calls the handler. *)
Theorem delivery_after_teardown :
  match run (race_schedule ++ teardown_schedule) (boot two_starts) with
  | Some w =>
      globals w = initial_state
      /\ is_active (globals w) = false
      /\ threads w = [Returned SNIFF_ERROR_PCAP_OPEN;
                      In_callback (Some 8%nat) [Byte.x2a] 60]
      /\ handler_calls (trace w) = []
      /\ option_map (fun w' => (threads w', globals w', handler_calls (trace w')))
           (step 1%nat Silent w)
         = Some ([Returned SNIFF_ERROR_PCAP_OPEN; In_loop], initial_state,
                 [(1%nat, Deliver 8%nat [Byte.x2a] 60)])
  | None => False
  end.
Proof. vm_compute. repeat split; reflexivity. Qed.

(** The sequence of the specification: a session is started on ["lo"]; a
    second thread finds it active and stops it; the engine then leaves the
    loop with -2, the call of the first thread returns [SNIFF_OK], and the
    status is inactive again. *)
Example start_status_stop_status :
  option_map (fun w => (threads w, globals w, map snd (trace w)))
    (run [(0%nat, Silent); (0%nat, Opened (Some 1%nat)); (0%nat, Silent);
          (0%nat, Silent); (0%nat, Silent);
          (1%nat, Silent); (2%nat, Silent);
          (0%nat, Loop_returns (-2) None); (0%nat, Silent);
          (3%nat, Silent)]
       (boot [Call_start (Some "lo"%string) (Some 7%nat); Call_is_active;
              Call_stop; Call_is_active]))
  = Some ([Returned SNIFF_OK; Returned_bool true; Returned SNIFF_OK;
           Returned_bool false],
          initial_state,
          let opened := {| handle := Some 1%nat; globalHandler := Some 7%nat;
                           is_running := true |} in
          [Unlock {| handle := None; globalHandler := Some 7%nat;
                     is_running := false |};
           Open "lo" (Some 1%nat); Unlock opened; Loop (Some 1%nat);
           Unlock opened; Break 1%nat; Unlock opened;
           Close 1%nat; Unlock initial_state; Unlock initial_state]).
Proof. vm_compute. reflexivity. Qed.

(** Without the race the handler is quiet after the return: once the
    only caller of [start_sniffing] has returned, no step of any thread
    calls a handler or changes a variable. *)
Lemma step_after_return (tid : nat) (r0 : reply) (w w' : world)
    (r : SniffResult) (rest : list pc) :
  threads w = Returned r :: rest ->
  Forall observer_pc rest ->
  step tid r0 w = Some w' ->
  exists rest',
    threads w' = Returned r :: rest'
    /\ Forall observer_pc rest'
    /\ globals w' = globals w
    /\ handler_calls (trace w') = handler_calls (trace w).
Proof.
  intros Hth Hobs Hstep. unfold step in Hstep. rewrite Hth in Hstep.
  destruct tid as [|tid]; simpl in Hstep; [discriminate Hstep|].
  destruct (rest !! tid) as [q|] eqn:Hq; [|discriminate Hstep].
  destruct (thread_step q r0 (globals w)) as [[[q' g'] es]|] eqn:E;
    [|discriminate Hstep].
  injection Hstep as <-.
  destruct (thread_step_observer _ _ _ _ _ _ (Forall_lookup_1 _ _ _ _ Hobs Hq) E)
    as (-> & Hq' & _ & Hdel).
  exists (<[tid := q']> rest). simpl. repeat split; auto.
  - apply Forall_insert; assumption.
  - unfold handler_calls. rewrite List.filter_app.
    replace (List.filter _ (map (pair (S tid)) es)) with (@nil (nat * event));
      [apply app_nil_r|].
    unfold deliveries in Hdel. clear -Hdel.
    induction es as [|e es IH]; simpl in *; [reflexivity|].
    destruct (is_delivery e); [discriminate Hdel | auto].
Qed.

(** X14. With one caller of [start_sniffing] (and any observers), once
    that call has returned, by whichever path, nothing that any thread
    does afterwards calls a handler, and the variables stay as the return
    left them: no handle, no handler, flag false. *)
Lemma no_delivery_after_return (device : option string)
    (handler : option PacketHandler) (observers : list pc)
    (schedule schedule' : list (nat * reply)) (w w' : world) (r : SniffResult) :
  Forall is_observer observers ->
  run schedule (boot (Call_start device handler :: observers)) = Some w ->
  threads w !! 0%nat = Some (Returned r) ->
  run schedule' w = Some w' ->
  globals w' = initial_state
  /\ handler_calls (trace w') = handler_calls (trace w).
Proof.
  intros Hobs Hrun Hret Hrun'.
  destruct (run_single_start _ _ _ (boot_single_start device handler _ Hobs) Hrun)
    as (p & rest & Hth & Hinv & Hrest & _).
  rewrite Hth in Hret. injection Hret as ->. simpl in Hinv.
  rewrite <- Hinv. clear Hrun Hinv Hobs.
  revert w rest Hth Hrest Hrun'.
  induction schedule' as [|[tid r0] schedule' IH]; intros w rest Hth Hrest Hrun';
    simpl in Hrun'.
  - injection Hrun' as <-. split; reflexivity.
  - destruct (step tid r0 w) as [w1|] eqn:E; [|discriminate Hrun'].
    destruct (step_after_return _ _ _ _ _ _ Hth Hrest E)
      as (rest' & Hth' & Hrest' & Hg & Hc).
    destruct (IH _ _ Hth' Hrest' Hrun') as (Hg' & Hc').
    split; congruence.
Qed.

End ConcurrencyFacts.

(** ** One call of [start_sniffing], from entry to return *)

Module SessionFacts.
Import Validator Sniffer Protocol.

Lemma engine_calls_app (es es' : list event) :
  engine_calls (es ++ es') = engine_calls es ++ engine_calls es'.
Proof. apply List.filter_app. Qed.

(** The callback calls nothing of the engine. *)
Lemma packet_callback_engine_calls (header : option pcap_pkthdr)
    (packet : option bytes) (g : state) :
  engine_calls (snd (packet_callback header packet g)) = [].
Proof.
  unfold packet_callback, callback_check, callback_deliver.
  destruct header as [h|], packet as [p|]; try reflexivity.
  destruct (is_valid_packet_length _); [|reflexivity].
  cbn [negb]. destruct (globalHandler g), (caplen h <? len h); reflexivity.
Qed.

Lemma pcap_loop_engine_calls (feed : list (option pcap_pkthdr * option bytes))
    (g : state) :
  engine_calls (snd (pcap_loop feed g)) = [].
Proof.
  revert g; induction feed as [|[header packet] feed IH]; intros g;
    [reflexivity|].
  cbn [pcap_loop].
  pose proof (packet_callback_engine_calls header packet g) as Hc.
  destruct (packet_callback header packet g) as [g1 es1].
  specialize (IH g1). destruct (pcap_loop feed g1) as [g2 es2].
  cbn [snd] in *. rewrite engine_calls_app, Hc, IH. reflexivity.
Qed.

(** What one event of the loop hands to the handler. *)
Lemma packet_callback_deliveries (f : PacketHandler)
    (header : option pcap_pkthdr) (packet : option bytes) (g : state) :
  globalHandler g = Some f ->
  deliveries (snd (packet_callback header packet g))
  = accepted f (header, packet).
Proof.
  intros Hf. unfold packet_callback, callback_check, callback_deliver, accepted.
  destruct header as [h|], packet as [p|]; try reflexivity.
  destruct (is_valid_packet_length _); [|reflexivity].
  cbn [negb]. rewrite Hf. destruct (caplen h <? len h); reflexivity.
Qed.

Lemma pcap_loop_deliveries (f : PacketHandler)
    (feed : list (option pcap_pkthdr * option bytes)) (g : state) :
  globalHandler g = Some f ->
  deliveries (snd (pcap_loop feed g)) = flat_map (accepted f) feed.
Proof.
  intros Hf. induction feed as [|[header packet] feed IH]; [reflexivity|].
  cbn [pcap_loop flat_map].
  pose proof (packet_callback_deliveries f header packet g Hf) as Hc.
  pose proof (CallbackFacts.packet_callback_state header packet g) as Hs.
  destruct (packet_callback header packet g) as [g1 es1].
  cbn [fst snd] in *. subst g1.
  destruct (pcap_loop feed g) as [g2 es2].
  cbn [snd] in *. rewrite CallbackFacts.deliveries_app, Hc, IH. reflexivity.
Qed.

(** The events of a call that got past the checks, written out. *)
Lemma start_sniffing_trace (e : engine) (d : string) (f : PacketHandler)
    (g : state) :
  is_valid_device_name (Some d) = true ->
  is_running g = false ->
  snd (start_sniffing e (Some d) (Some f) g)
  = match open_reply e with
    | None =>
        [Unlock (set_globalHandler (Some f) g); Open d None;
         Unlock initial_state; Log (Could_not_open d)]
    | Some h =>
        let g3 := set_is_running true
                    (set_handle (Some h) (set_globalHandler (Some f) g)) in
        [Unlock (set_globalHandler (Some f) g); Open d (Some h); Unlock g3;
         Loop (Some h)]
        ++ snd (pcap_loop (loop_feed e) g3)
        ++ snd (start_cleanup (loop_reply e) (geterr_reply e) g3)
    end.
Proof.
  intros Hd Hr. unfold start_sniffing, start_entry. rewrite Hd, Hr.
  cbn [negb start_open set_handle handle].
  destruct (open_reply e) as [h|].
  - cbn [start_mark start_loop_call].
    pose proof (LifecycleFacts.pcap_loop_state (loop_feed e)
                  (set_is_running true
                     (set_handle (Some h) (set_globalHandler (Some f) g))))
      as Hloop.
    destruct (pcap_loop _ _) as [g5 es5]. cbn [fst] in Hloop. subst g5.
    destruct (start_cleanup _ _ _) as [[r g6] es6]. reflexivity.
  - unfold start_open_failed, set_is_running, set_globalHandler. cbn.
    rewrite Hr. reflexivity.
Qed.

(** X1. The result of [start_sniffing], case by case: which inputs and
    which answers of the engine give each code. The call returns
    [SNIFF_OK] (code 0) exactly when both parameters are set, the device
    name is valid, no session was running, the open succeeded and the loop
    returned 0 or -2; every other result has a negative code, and
    [SNIFF_ERROR_NOT_RUNNING] is never returned. *)
Theorem start_sniffing_result (e : engine) (device : option string)
    (handler : option PacketHandler) (g : state) :
  let r := fst (fst (start_sniffing e device handler g)) in
  let checked :=
    device <> None /\ handler <> None
    /\ is_valid_device_name device = true in
  (r = SNIFF_ERROR_NULL_PARAM <-> device = None \/ handler = None)
  /\ (r = SNIFF_ERROR_INVALID_DEVICE
      <-> device <> None /\ handler <> None
          /\ is_valid_device_name device = false)
  /\ (r = SNIFF_ERROR_ALREADY_RUNNING <-> checked /\ is_running g = true)
  /\ (r = SNIFF_ERROR_PCAP_OPEN
      <-> checked /\ is_running g = false
          /\ (open_reply e = None
              \/ (loop_reply e <> 0 /\ loop_reply e <> -2)))
  /\ (r = SNIFF_OK
      <-> checked /\ is_running g = false /\ open_reply e <> None
          /\ (loop_reply e = 0 \/ loop_reply e = -2))
  /\ r <> SNIFF_ERROR_NOT_RUNNING
  /\ (SniffResult_code r = 0 <-> r = SNIFF_OK)
  /\ SniffResult_code r <= 0.
Proof.
  assert (Hr : fst (fst (start_sniffing e device handler g))
    = match device, handler with
      | None, _ | _, None => SNIFF_ERROR_NULL_PARAM
      | Some _, Some _ =>
          if negb (is_valid_device_name device) then SNIFF_ERROR_INVALID_DEVICE
          else if is_running g then SNIFF_ERROR_ALREADY_RUNNING
          else match open_reply e with
               | None => SNIFF_ERROR_PCAP_OPEN
               | Some _ =>
                   if (loop_reply e =? 0) || (loop_reply e =? -2)
                   then SNIFF_OK else SNIFF_ERROR_PCAP_OPEN
               end
      end).
  { unfold start_sniffing, start_entry.
    destruct device as [d|], handler as [f|]; try reflexivity.
    destruct (is_valid_device_name (Some d)); [|reflexivity].
    destruct (is_running g); [reflexivity|].
    cbn [negb start_open set_handle handle].
    destruct (open_reply e) as [h|]; [|reflexivity].
    cbn [start_mark start_loop_call].
    destruct (pcap_loop _ _) as [g5 es5]. reflexivity. }
  cbv zeta. rewrite Hr. clear Hr.
  destruct device as [d|], handler as [f|];
    try (repeat split; intros; try discriminate; try (simpl; lia);
         intuition congruence).
  destruct (is_valid_device_name (Some d)) eqn:Hd; cbn [negb];
    [|repeat split; intros; try discriminate; try (simpl; lia);
      intuition congruence].
  destruct (is_running g) eqn:Hg;
    [repeat split; intros; try discriminate; try (simpl; lia);
     intuition congruence|].
  destruct (open_reply e) as [h|] eqn:Ho;
    [|repeat split; intros; try discriminate; try (simpl; lia);
      intuition congruence].
  destruct (loop_reply e =? 0) eqn:E0; cbn [orb].
  { apply Z.eqb_eq in E0.
    repeat split; intros; try discriminate; try (simpl; lia);
      intuition (congruence || lia). }
  apply Z.eqb_neq in E0.
  destruct (loop_reply e =? -2) eqn:E2.
  { apply Z.eqb_eq in E2.
    repeat split; intros; try discriminate; try (simpl; lia);
      intuition (congruence || lia). }
  apply Z.eqb_neq in E2.
  repeat split; intros; try discriminate; try (simpl; lia);
    intuition (congruence || lia).
Qed.

(** X2. A call that gets past the checks uses the engine in one fixed
    order. If the open is refused it makes that one call and no other. If
    the open gives [h], it enters the loop on [h], asks for the error text
    on [h] when the loop returned -1, and closes [h] last: the handle it
    opened is closed exactly once before the call returns, and the call
    never sends the cancel signal. *)
Theorem start_sniffing_engine_calls (e : engine) (d : string)
    (f : PacketHandler) (g : state) :
  is_valid_device_name (Some d) = true ->
  is_running g = false ->
  engine_calls (snd (start_sniffing e (Some d) (Some f) g))
  = match open_reply e with
    | None => [Open d None]
    | Some h =>
        [Open d (Some h); Loop (Some h)]
        ++ (if loop_reply e =? -1 then [Get_err (Some h)] else [])
        ++ [Close h]
    end.
Proof.
  intros Hd Hr. rewrite start_sniffing_trace by assumption.
  destruct (open_reply e) as [h|]; [|reflexivity].
  cbv zeta. rewrite !engine_calls_app, pcap_loop_engine_calls.
  unfold start_cleanup. cbn [snd set_handle set_is_running handle].
  destruct (loop_reply e =? -1), (geterr_reply e); reflexivity.
Qed.

Lemma start_sniffing_engine_calls_witness :
  let e := {| open_reply := Some 1%nat;
              loop_feed := [(Some {| caplen := 60; len := 60 |},
                             Some [Byte.x2a])];
              loop_reply := -1; geterr_reply := Some "down"%string |} in
  is_valid_device_name (Some "en0"%string) = true
  /\ is_running initial_state = false
  /\ engine_calls (snd (start_sniffing e (Some "en0"%string) (Some 7%nat)
                          initial_state))
     = [Open "en0" (Some 1%nat); Loop (Some 1%nat); Get_err (Some 1%nat);
        Close 1%nat].
Proof.
  intros e. split; [reflexivity|]. split; [reflexivity|].
  exact (start_sniffing_engine_calls e "en0" 7%nat initial_state
           eq_refl eq_refl).
Defined.

(** X3. The handler calls of a call that gets past the checks are, in the
    order of arrival and once each, the events of the loop that have both
    pointers set and a claimed length within 1..65536, each with its
    captured length, all to the handler given to this call; nothing is
    delivered when the open is refused. *)
Theorem start_sniffing_deliveries (e : engine) (d : string)
    (f : PacketHandler) (g : state) :
  is_valid_device_name (Some d) = true ->
  is_running g = false ->
  deliveries (snd (start_sniffing e (Some d) (Some f) g))
  = match open_reply e with
    | None => []
    | Some _ => flat_map (accepted f) (loop_feed e)
    end.
Proof.
  intros Hd Hr. rewrite start_sniffing_trace by assumption.
  destruct (open_reply e) as [h|]; [|reflexivity].
  cbv zeta. rewrite !CallbackFacts.deliveries_app.
  rewrite (pcap_loop_deliveries f) by reflexivity.
  unfold start_cleanup. cbn [snd set_handle set_is_running handle].
  rewrite !CallbackFacts.deliveries_app.
  destruct (loop_reply e =? -1), (geterr_reply e); cbn;
    rewrite app_nil_r; reflexivity.
Qed.

Lemma start_sniffing_deliveries_witness :
  let e := {| open_reply := Some 1%nat;
              loop_feed := [(Some {| caplen := 60; len := 60 |},
                             Some [Byte.x2a]);
                            (Some {| caplen := 60; len := 70000 |},
                             Some [Byte.x2b]);
                            (None, Some [Byte.x2c]);
                            (Some {| caplen := 1024; len := 1500 |},
                             Some [Byte.x2d])];
              loop_reply := -2; geterr_reply := None |} in
  is_valid_device_name (Some "en0"%string) = true
  /\ is_running initial_state = false
  /\ deliveries (snd (start_sniffing e (Some "en0"%string) (Some 7%nat)
                        initial_state))
     = [Deliver 7%nat [Byte.x2a] 60; Deliver 7%nat [Byte.x2d] 1024].
Proof.
  intros e. split; [reflexivity|]. split; [reflexivity|].
  exact (start_sniffing_deliveries e "en0" 7%nat initial_state
           eq_refl eq_refl).
Defined.

(** X4. [stop_sniffing] answers [SNIFF_OK] exactly in the states in which
    [is_sniffing_active] answers true; it does not change that answer (the
    session stays active after a successful stop, until the thread of the
    loop cleans up), and a second stop behaves as the first. *)
Theorem stop_sniffing_iff_active (g : state) :
  (fst (fst (stop_sniffing g)) = SNIFF_OK <-> is_active g = true)
  /\ is_active (snd (fst (stop_sniffing g))) = is_active g
  /\ stop_sniffing (snd (fst (stop_sniffing g))) = stop_sniffing g.
Proof.
  unfold stop_sniffing, is_active, is_sniffing_active.
  destruct g as [[h|] f [|]]; cbn; repeat split; intros; congruence.
Qed.

(** X5. The first critical section of [start_sniffing] does not claim the
    session: after a call has run it, from a state where the flag is not
    set, a second call with valid arguments passes the same section too,
    and the handler it records replaces the handler of the first. *)
Theorem start_entry_does_not_claim (d1 d2 : string) (f1 f2 : PacketHandler)
    (g : state) :
  is_valid_device_name (Some d1) = true ->
  is_valid_device_name (Some d2) = true ->
  is_running g = false ->
  start_entry (Some d2) (Some f2)
    (snd (fst (start_entry (Some d1) (Some f1) g)))
  = (inr d2, set_globalHandler (Some f2) g,
     [Unlock (set_globalHandler (Some f2) g)]).
Proof.
  intros H1 H2 Hr. unfold start_entry. rewrite H1, H2, Hr. cbn.
  rewrite Hr. reflexivity.
Qed.

Lemma start_entry_does_not_claim_witness :
  is_valid_device_name (Some "en0"%string) = true
  /\ is_valid_device_name (Some "lo"%string) = true
  /\ is_running initial_state = false
  /\ start_entry (Some "lo"%string) (Some 8%nat)
       (snd (fst (start_entry (Some "en0"%string) (Some 7%nat) initial_state)))
     = (inr "lo"%string, set_globalHandler (Some 8%nat) initial_state,
        [Unlock (set_globalHandler (Some 8%nat) initial_state)]).
Proof.
  split; [reflexivity|]. split; [reflexivity|]. split; [reflexivity|].
  exact (start_entry_does_not_claim "en0" "lo" 7%nat 8%nat initial_state
           eq_refl eq_refl eq_refl).
Defined.

End SessionFacts.

(** ** The older translation unit *)

Module LegacyFacts.
Import Validator Sniffer.

Lemma legacy_pcap_loop_state (feed : list (pcap_pkthdr * bytes))
    (g : Legacy.state) :
  fst (Legacy.pcap_loop feed g) = g.
Proof.
  induction feed as [|[header packet] feed IH]; [reflexivity|].
  cbn [Legacy.pcap_loop]. unfold Legacy.packet_callback.
  destruct (Legacy.globalHandler g);
    destruct (Legacy.pcap_loop feed g) as [g2 es2]; exact IH.
Qed.

(** The older loop makes handler calls and nothing else. *)
Lemma legacy_pcap_loop_events (feed : list (pcap_pkthdr * bytes))
    (g : Legacy.state) :
  Forall (fun e => is_delivery e = true) (snd (Legacy.pcap_loop feed g)).
Proof.
  induction feed as [|[header packet] feed IH]; [constructor|].
  cbn [Legacy.pcap_loop]. unfold Legacy.packet_callback.
  destruct (Legacy.globalHandler g);
    destruct (Legacy.pcap_loop feed g) as [g2 es2]; cbn [snd] in *;
    [constructor; [reflexivity | exact IH] | exact IH].
Qed.

Lemma engine_calls_of_deliveries (es : list event) :
  Forall (fun e => is_delivery e = true) es -> engine_calls es = [].
Proof.
  induction 1 as [|e es He _ IH]; [reflexivity|].
  destruct e; try discriminate He. exact IH.
Qed.

Lemma int_of_u32_inj (a b : Z) :
  0 <= a < 2 ^ 32 -> 0 <= b < 2 ^ 32 ->
  int_of_u32 a = int_of_u32 b -> a = b.
Proof.
  unfold int_of_u32. intros Ha Hb.
  destruct (a <? 2 ^ 31) eqn:Ea, (b <? 2 ^ 31) eqn:Eb;
    rewrite ?Z.ltb_lt, ?Z.ltb_ge in *; lia.
Qed.

(** X6. The older [stop_sniffing] cancels and closes the handle it finds,
    once, and forgets it; the handler stays registered. A second call in a
    row calls nothing of the engine and changes nothing, so the handle is
    not closed twice. *)
Theorem legacy_stop_closes_once (g : Legacy.state) :
  let g1 := fst (Legacy.stop_sniffing g) in
  Legacy.handle g1 = None
  /\ Legacy.globalHandler g1 = Legacy.globalHandler g
  /\ snd (Legacy.stop_sniffing g)
     = match Legacy.handle g with
       | Some h => [Break h; Close h]
       | None => []
       end
  /\ Legacy.stop_sniffing g1 = (g1, []).
Proof.
  unfold Legacy.stop_sniffing. destruct g as [[h|] f]; cbn; auto.
Qed.

(** X7. The older [start_sniffing] never closes the handle and never
    clears the handler: when it returns, after the loop or after a refused
    open, the handle is whatever the open gave and the handler is still
    the one passed in (so after a refused open a handler is registered
    without a handle). The handle is closed by the [stop_sniffing] that
    follows, and by nothing else: together the two calls open, loop,
    cancel and close once, in that order. *)
Theorem legacy_start_then_stop (open_reply : option pcap_t)
    (feed : list (pcap_pkthdr * bytes)) (device : string)
    (handler : option PacketHandler) (g : Legacy.state) :
  let started := Legacy.start_sniffing open_reply feed device handler g in
  let stopped := Legacy.stop_sniffing (fst started) in
  fst started = {| Legacy.handle := open_reply;
                   Legacy.globalHandler := handler |}
  /\ (forall h, ~ In (Close h) (snd started))
  /\ fst stopped = {| Legacy.handle := None; Legacy.globalHandler := handler |}
  /\ engine_calls (snd started ++ snd stopped)
     = match open_reply with
       | Some h => [Open device (Some h); Loop (Some h); Break h; Close h]
       | None => [Open device None]
       end.
Proof.
  cbv zeta. unfold Legacy.start_sniffing. cbn [Legacy.handle Legacy.globalHandler].
  destruct open_reply as [h|].
  - pose proof (legacy_pcap_loop_state feed
                  {| Legacy.handle := Some h; Legacy.globalHandler := handler |})
      as Hs.
    pose proof (legacy_pcap_loop_events feed
                  {| Legacy.handle := Some h; Legacy.globalHandler := handler |})
      as He.
    destruct (Legacy.pcap_loop feed _) as [g3 es]. cbn [fst snd] in *. subst g3.
    split; [reflexivity|]. split; [|split; [reflexivity|]].
    + intros h' [Hin | [Hin | Hin]]; try discriminate Hin.
      rewrite List.Forall_forall in He. specialize (He _ Hin). discriminate He.
    + cbn [Legacy.stop_sniffing Legacy.handle snd app engine_calls
           List.filter is_engine_call].
      fold (engine_calls (es ++ [Break h; Close h])).
      rewrite SessionFacts.engine_calls_app.
      rewrite engine_calls_of_deliveries by exact He. reflexivity.
  - cbn. split; [reflexivity|]. split; [|split; reflexivity].
    intros h' [Hin | [Hin | Hin]]; try discriminate Hin. exact Hin.
Qed.

(** X8. The older callback tells the handler the claimed length of every
    event, unchecked. The callback of [src/PacketSniffer.c], given the
    same event and the same handler, makes the same handler call exactly
    when the claimed length is within 1..65536 and nothing was cut off
    (captured length = claimed length); otherwise it drops the event or
    tells the captured length. *)
Theorem legacy_callback_tells_claimed_length (h : pcap_pkthdr) (p : bytes)
    (f : PacketHandler) (old : Legacy.state) (g : state) :
  wf_pkthdr h ->
  Legacy.globalHandler old = Some f ->
  globalHandler g = Some f ->
  snd (Legacy.packet_callback h p old) = [Deliver f p (int_of_u32 (len h))]
  /\ (deliveries (snd (packet_callback (Some h) (Some p) g))
      = snd (Legacy.packet_callback h p old)
      <-> 1 <= len h <= 65536 /\ caplen h = len h).
Proof.
  intros [Hc Hl] Hold Hg. unfold Legacy.packet_callback. rewrite Hold.
  split; [reflexivity|]. cbn [snd].
  rewrite (SessionFacts.packet_callback_deliveries f) by assumption.
  unfold Protocol.accepted.
  destruct (is_valid_packet_length (int_of_u32 (len h))) eqn:Ev.
  - apply (CallbackFacts.is_valid_packet_length_u32 _ Hl) in Ev. split.
    + intros [= Heq]. split; [exact Ev|].
      apply int_of_u32_inj; assumption.
    + intros [_ ->]. reflexivity.
  - split; [discriminate|]. intros [Hin _].
    apply (CallbackFacts.is_valid_packet_length_u32 _ Hl) in Hin. congruence.
Qed.

Lemma legacy_callback_tells_claimed_length_witness :
  let h := {| caplen := 1024; len := 1500 |} in
  let old := {| Legacy.handle := Some 1%nat;
                Legacy.globalHandler := Some 7%nat |} in
  let g := {| handle := Some 1%nat; globalHandler := Some 7%nat;
              is_running := true |} in
  wf_pkthdr h
  /\ Legacy.globalHandler old = Some 7%nat
  /\ globalHandler g = Some 7%nat
  /\ snd (Legacy.packet_callback h [Byte.x2a] old)
     = [Deliver 7%nat [Byte.x2a] (int_of_u32 1500)]
  /\ (deliveries (snd (packet_callback (Some h) (Some [Byte.x2a]) g))
      = snd (Legacy.packet_callback h [Byte.x2a] old)
      <-> 1 <= len h <= 65536 /\ caplen h = len h).
Proof.
  intros h old g.
  assert (Hw : wf_pkthdr h) by (unfold wf_pkthdr; simpl; lia).
  split; [exact Hw|]. split; [reflexivity|]. split; [reflexivity|].
  exact (legacy_callback_tells_claimed_length h [Byte.x2a] 7%nat old g
           Hw eq_refl eq_refl).
Defined.

End LegacyFacts.

(** ** The engine protocol of a session *)

Module ProtocolFacts.
Import Validator Sniffer Protocol.

Lemma handler_is_eq (H : option PacketHandler) (f : PacketHandler) :
  handler_is H f = true <-> H = Some f.
Proof.
  unfold handler_is. destruct H as [f'|]; [|split; discriminate].
  rewrite Nat.eqb_eq. split; congruence.
Qed.

Lemma monitor_app (H : option PacketHandler) (ph : phase)
    (t1 t2 : list (nat * event)) :
  monitor H ph (t1 ++ t2)
  = match monitor H ph t1 with
    | Some ph' => monitor H ph' t2
    | None => None
    end.
Proof.
  revert ph; induction t1 as [|te t1 IH]; intros ph; simpl; [reflexivity|].
  destruct (monitor_step H ph te); [apply IH | reflexivity].
Qed.

Lemma monitor_log (H : option PacketHandler) (ph : phase) (tid : nat)
    (d : diagnostic) (t : list (nat * event)) :
  monitor H ph ((tid, Log d) :: t) = monitor H ph t.
Proof. reflexivity. Qed.

Lemma monitor_break (H : option PacketHandler) (h : pcap_t) (tid : nat)
    (t : list (nat * event)) :
  monitor H (Opened_on h) ((tid, Break h) :: t) = monitor H (Opened_on h) t.
Proof. cbn. rewrite Nat.eqb_refl. reflexivity. Qed.

(** While the flag is set the handle is open and the handler is the one
    of the caller. *)
Lemma session_inv_running (H : option PacketHandler) (p : pc) (g : state)
    (ph : phase) :
  session_inv H p g ph ->
  is_running g = true ->
  exists h f, handle g = Some h /\ globalHandler g = Some f /\ H = Some f
              /\ ph = Opened_on h.
Proof.
  intros Hinv Hrun.
  assert (Hopen : forall h, globalHandler g = H -> H <> None ->
            handle g = Some h -> ph = Opened_on h ->
            exists h f, handle g = Some h /\ globalHandler g = Some f
                        /\ H = Some f /\ ph = Opened_on h).
  { intros h Hf Hn Hh ->. destruct H as [f|]; [|congruence].
    exists h, f. auto. }
  destruct p; simpl in Hinv; try contradiction.
  - destruct Hinv as (_ & -> & _). discriminate Hrun.
  - destruct Hinv as (_ & _ & _ & Hr & _). congruence.
  - destruct Hinv as (_ & _ & Hr & _). congruence.
  - destruct Hinv as (_ & Hr & _). congruence.
  - destruct Hinv as (_ & _ & Hr & _). congruence.
  - destruct Hinv as (Hf & Hn & h & Hh & Hp). eauto.
  - destruct Hinv as (Hf & Hn & h & Hh & Hp). eauto.
  - destruct Hinv as (_ & Hf & Hn & h & Hh & Hp). eauto.
  - destruct Hinv as (Hf & Hn & h & Hh & Hp). eauto.
  - destruct Hinv as (-> & _). discriminate Hrun.
Qed.

(** A release of the lock passes the check in every state the caller of
    [start_sniffing] can have made. *)
Lemma monitor_unlock (H : option PacketHandler) (p : pc) (g : state)
    (ph : phase) (tid : nat) :
  session_inv H p g ph ->
  monitor_step H ph (tid, Unlock g) = Some ph.
Proof.
  intros Hinv. unfold monitor_step.
  destruct (is_running g) eqn:Hrun; [|reflexivity].
  destruct (session_inv_running _ _ _ _ Hinv Hrun)
    as (h & f & -> & -> & -> & ->).
  cbn. rewrite !Nat.eqb_refl. reflexivity.
Qed.

(** The caller of [start_sniffing] keeps to the protocol, step by step. *)
Lemma session_step_start (H : option PacketHandler) (p p' : pc) (r : reply)
    (g g' : state) (es : list event) (ph : phase) :
  session_inv H p g ph ->
  thread_step p r g = Some (p', g', es) ->
  exists ph',
    monitor H ph (map (pair 0%nat) es) = Some ph'
    /\ session_inv H p' g' ph'.
Proof.
  intros Hinv Hstep. destruct p; simpl in Hinv; try contradiction.
  - (* Call_start *)
    destruct Hinv as (-> & -> & ->).
    unfold thread_step, start_entry in Hstep.
    destruct r; try discriminate Hstep.
    destruct device as [d|]; [|injection Hstep as <- <- <-; cbn; eauto].
    destruct H as [f|]; [|injection Hstep as <- <- <-; cbn; eauto].
    destruct (is_valid_device_name (Some d));
      cbn in Hstep; injection Hstep as <- <- <-; cbn; eauto.
    exists Not_opened. repeat split; auto; discriminate.
  - (* Start_open *)
    destruct Hinv as (Hh & Hf & Hn & Hr & ->).
    unfold thread_step, start_open in Hstep.
    destruct r; try discriminate Hstep. injection Hstep as <- <- <-.
    cbn. eexists. split; [reflexivity|]. cbn. auto.
  - (* Start_test *)
    destruct Hinv as (Hf & Hn & Hr & ->).
    unfold thread_step in Hstep. destruct r; try discriminate Hstep.
    destruct (handle g) as [h|] eqn:Hh; injection Hstep as <- <- <-; cbn;
      eexists; (split; [reflexivity|]); cbn; eauto 6.
  - (* Start_open_failed *)
    destruct Hinv as (Hh & Hr & ->).
    unfold thread_step, start_open_failed in Hstep.
    destruct r; try discriminate Hstep. injection Hstep as <- <- <-.
    destruct g as [hd gh run]. cbn in *. subst hd.
    exists Closed. split; [reflexivity|]. split; [reflexivity | auto].
  - (* Start_mark *)
    destruct Hinv as (Hf & Hn & Hr & h & Hh & ->).
    unfold thread_step, start_mark in Hstep.
    destruct r; try discriminate Hstep. injection Hstep as <- <- <-.
    assert (Hnext : session_inv H Start_loop_call (set_is_running true g)
                      (Opened_on h)) by (cbn; eauto).
    exists (Opened_on h). split; [|exact Hnext].
    cbn [map monitor]. rewrite (monitor_unlock _ _ _ _ _ Hnext). reflexivity.
  - (* Start_loop_call *)
    destruct Hinv as (Hf & Hn & h & Hh & ->).
    unfold thread_step, start_loop_call in Hstep.
    destruct r; try discriminate Hstep. injection Hstep as <- <- <-.
    exists (Opened_on h). split; [|cbn; eauto].
    cbn. rewrite Hh. cbn. rewrite Nat.eqb_refl. reflexivity.
  - (* In_loop *)
    pose proof Hinv as (Hf & Hn & h & Hh & ->).
    pose proof (monitor_unlock H In_loop g (Opened_on h) 0%nat Hinv) as Hu.
    unfold thread_step, callback_check in Hstep.
    destruct r as [| |header packet|result errtext]; try discriminate Hstep.
    + destruct header as [hd|], packet as [pk|];
        try (injection Hstep as <- <- <-; exists (Opened_on h);
             split; [reflexivity | exact Hinv]).
      destruct (is_valid_packet_length (int_of_u32 (len hd)));
        cbn [negb] in Hstep; injection Hstep as <- <- <-;
        exists (Opened_on h).
      * split; [|cbn; eauto 6].
        destruct (caplen hd <? len hd); cbn [map app];
          rewrite ?monitor_log; cbn [monitor]; rewrite Hu; reflexivity.
      * split; [reflexivity | exact Hinv].
    + injection Hstep as <- <- <-. exists (Opened_on h).
      split; [reflexivity | exact Hinv].
  - (* In_callback *)
    destruct Hinv as (-> & Hf & Hn & h & Hh & ->).
    unfold thread_step, callback_deliver in Hstep.
    destruct r; try discriminate Hstep.
    exists (Opened_on h).
    destruct H as [f|]; [|congruence]. injection Hstep as <- <- <-.
    split; [|cbn; eauto 6].
    cbn. rewrite Nat.eqb_refl. reflexivity.
  - (* Start_cleanup *)
    destruct Hinv as (Hf & Hn & h & Hh & ->).
    unfold thread_step, start_cleanup in Hstep.
    destruct r; try discriminate Hstep. injection Hstep as <- <- <-.
    exists Closed. rewrite Hh. split; [|cbn; auto].
    destruct (result =? -1), errtext; cbn; rewrite ?Nat.eqb_refl; reflexivity.
  - (* Returned *)
    discriminate Hstep.
Qed.

(** An observer keeps to it too, and leaves the phase where it is. *)
Lemma session_step_observer (H : option PacketHandler) (p q q' : pc)
    (r : reply) (g g' : state) (es : list event) (ph : phase) (tid : nat) :
  session_inv H p g ph ->
  observer_pc q ->
  thread_step q r g = Some (q', g', es) ->
  g' = g /\ observer_pc q' /\ monitor H ph (map (pair tid) es) = Some ph.
Proof.
  intros Hinv Hq Hstep.
  pose proof (monitor_unlock H p g ph tid Hinv) as Hu.
  destruct q; simpl in Hq; try contradiction; try discriminate Hstep.
  - unfold thread_step, stop_sniffing in Hstep.
    destruct r; try discriminate Hstep.
    destruct (is_running g) eqn:Hrun.
    + destruct (session_inv_running _ _ _ _ Hinv Hrun)
        as (h & f & Hh & Hf & -> & ->).
      rewrite Hh in Hstep. injection Hstep as <- <- <-.
      split; [reflexivity|]. split; [exact I|].
      cbn [map]. rewrite monitor_break. cbn [monitor]. rewrite Hu.
      reflexivity.
    + replace (match handle g with Some _ | _ =>
                 (SNIFF_ERROR_NOT_RUNNING, g, [Unlock g]) end)
        with (SNIFF_ERROR_NOT_RUNNING, g, [Unlock g]) in Hstep
        by (destruct (handle g); reflexivity).
      injection Hstep as <- <- <-.
      split; [reflexivity|]. split; [exact I|].
      cbn [map monitor]. rewrite Hu. reflexivity.
  - unfold thread_step, is_sniffing_active in Hstep.
    destruct r; try discriminate Hstep. injection Hstep as <- <- <-.
    split; [reflexivity|]. split; [exact I|].
    cbn [map monitor]. rewrite Hu. reflexivity.
Qed.

Lemma step_session_ok (H : option PacketHandler) (tid : nat) (r : reply)
    (w w' : world) :
  session_ok H w -> step tid r w = Some w' -> session_ok H w'.
Proof.
  intros (p & rest & ph & Hth & Hobs & Hmon & Hinv) Hstep.
  unfold step in Hstep. rewrite Hth in Hstep.
  destruct tid as [|tid]; simpl in Hstep.
  - destruct (thread_step p r (globals w)) as [[[p' g'] es]|] eqn:E;
      [|discriminate Hstep].
    injection Hstep as <-.
    destruct (session_step_start _ _ _ _ _ _ _ _ Hinv E) as (ph' & Hm & Hinv').
    exists p', rest, ph'. cbn. repeat split; auto.
    rewrite monitor_app, Hmon. exact Hm.
  - destruct (rest !! tid) as [q|] eqn:Hq; [|discriminate Hstep].
    destruct (thread_step q r (globals w)) as [[[q' g'] es]|] eqn:E;
      [|discriminate Hstep].
    injection Hstep as <-.
    destruct (session_step_observer H p q q' r _ _ es ph (S tid) Hinv
                (Forall_lookup_1 _ _ _ _ Hobs Hq) E) as (-> & Hq' & Hm).
    exists p, (<[tid := q']> rest), ph. cbn. repeat split; auto.
    + apply Forall_insert; assumption.
    + rewrite monitor_app, Hmon. exact Hm.
Qed.

(** Every trace of one caller of [start_sniffing] and observers passes
    the monitor. *)
Lemma run_session_ok (device : option string) (H : option PacketHandler)
    (observers : list pc) (schedule : list (nat * reply)) (w : world) :
  Forall is_observer observers ->
  run schedule (boot (Call_start device H :: observers)) = Some w ->
  session_ok H w.
Proof.
  intros Hobs.
  assert (Hboot : session_ok H (boot (Call_start device H :: observers))).
  { exists (Call_start device H), observers, Not_opened. cbn.
    repeat split; auto.
    eapply Forall_impl; [exact Hobs|]. intros q [-> | ->]; exact I. }
  revert Hboot. generalize (boot (Call_start device H :: observers)).
  induction schedule as [|[tid r] schedule IH]; intros w0 Hw0 Hrun;
    simpl in Hrun.
  - injection Hrun as <-. exact Hw0.
  - destruct (step tid r w0) as [w1|] eqn:E; [|discriminate Hrun].
    eapply IH; [|exact Hrun]. eapply step_session_ok; eassumption.
Qed.

(** *** Reading a trace that passes the monitor *)

Lemma monitor_split (H : option PacketHandler) (ph ph' : phase)
    (t1 t2 : list (nat * event)) (te : nat * event) :
  monitor H ph (t1 ++ te :: t2) = Some ph' ->
  exists ph1 ph2,
    monitor H ph t1 = Some ph1
    /\ monitor_step H ph1 te = Some ph2
    /\ monitor H ph2 t2 = Some ph'.
Proof.
  rewrite monitor_app. destruct (monitor H ph t1) as [ph1|]; [|discriminate].
  cbn [monitor]. destruct (monitor_step H ph1 te) as [ph2|] eqn:E;
    [|discriminate].
  intros Hm. exists ph1, ph2. auto.
Qed.

(** The phase moves only at an open and at a close. *)
Lemma monitor_step_phase (H : option PacketHandler) (ph ph1 : phase)
    (tid : nat) (e : event) :
  monitor_step H ph (tid, e) = Some ph1 ->
  match e with
  | Open _ r =>
      ph = Not_opened /\ tid = 0%nat
      /\ ph1 = match r with Some h => Opened_on h | None => Closed end
  | Close h => ph = Opened_on h /\ tid = 0%nat /\ ph1 = Closed
  | _ => ph1 = ph
  end.
Proof.
  unfold monitor_step.
  destruct e as [d|s|d r|r|h'|r|h'|f p n]; intros Hm.
  - congruence.
  - destruct (is_running s); [|congruence].
    destruct ph, (handle s), (globalHandler s); try discriminate Hm.
    destruct (_ && _); congruence.
  - destruct ph; try discriminate Hm.
    destruct (tid =? 0)%nat eqn:E; [|discriminate Hm].
    apply Nat.eqb_eq in E. injection Hm as <-. auto.
  - destruct ph, r; try discriminate Hm. destruct (_ && _); congruence.
  - destruct ph; try discriminate Hm. destruct (_ =? _)%nat; congruence.
  - destruct ph, r; try discriminate Hm. destruct (_ && _); congruence.
  - destruct ph as [|h|]; try discriminate Hm.
    destruct (tid =? 0)%nat eqn:E1; [|discriminate Hm].
    destruct (h =? h')%nat eqn:E2; [|discriminate Hm].
    apply Nat.eqb_eq in E1, E2. injection Hm as <-. subst. auto.
  - destruct ph; try discriminate Hm. destruct (_ && _); congruence.
Qed.

(** After the close (or a refused open) the trace holds no engine call
    and no handler call. *)
Lemma monitor_closed (H : option PacketHandler) (ph : phase)
    (t : list (nat * event)) :
  monitor H Closed t = Some ph ->
  ph = Closed
  /\ engine_calls (map snd t) = []
  /\ deliveries (map snd t) = [].
Proof.
  induction t as [|[tid e] t IH]; cbn [monitor]; [intros [= <-]; auto|].
  destruct (monitor_step H Closed (tid, e)) as [ph1|] eqn:E; [|discriminate].
  intros Hm. pose proof (monitor_step_phase _ _ _ _ _ E) as Hp.
  destruct e; try (destruct Hp as (Hp & _); discriminate Hp);
    try (subst ph1; destruct (IH Hm) as (-> & Hc & Hd); auto);
    discriminate E.
Qed.

(** While a handle is open, it was opened by thread 0 earlier in the trace
    and nothing has been closed. *)
Lemma monitor_opened (H : option PacketHandler) (ph : phase) (h : pcap_t)
    (t : list (nat * event)) :
  monitor H ph t = Some (Opened_on h) ->
  no_close t
  /\ (ph = Opened_on h
      \/ (ph = Not_opened /\ exists d, In (0%nat, Open d (Some h)) t)).
Proof.
  revert ph; induction t as [|[tid e] t IH]; intros ph; cbn [monitor].
  - intros [= ->]. split; [intros tid' h' []|auto].
  - destruct (monitor_step H ph (tid, e)) as [ph1|] eqn:E; [|discriminate].
    intros Hm. destruct (IH _ Hm) as (Hnc & Hph).
    pose proof (monitor_step_phase _ _ _ _ _ E) as Hp.
    assert (Hne : forall h', e <> Close h').
    { intros h' ->. destruct Hp as (_ & _ & ->).
      destruct Hph as [Hph | (Hph & _)]; discriminate Hph. }
    split.
    + intros tid' h' [Heq | Hin]; [|exact (Hnc _ _ Hin)].
      injection Heq as _ Heq. exact (Hne _ Heq).
    + destruct e as [d|s|d r|r|h'|r|h'|f p n];
        try (subst ph1;
             destruct Hph as [Hph | (Hph & d' & Hin)];
             [left; exact Hph | right; split; [exact Hph|];
              exists d'; right; exact Hin]).
      * destruct Hp as (-> & -> & ->). right. split; [reflexivity|].
        destruct Hph as [Hph | (Hph & _)]; [|destruct r; discriminate Hph].
        destruct r as [h0|]; [|discriminate Hph]. injection Hph as ->.
        exists d. left. reflexivity.
      * exfalso. exact (Hne h' eq_refl).
Qed.

Lemma monitor_opened_from_start (H : option PacketHandler) (h : pcap_t)
    (t : list (nat * event)) :
  monitor H Not_opened t = Some (Opened_on h) ->
  no_close t /\ exists d, In (0%nat, Open d (Some h)) t.
Proof.
  intros Hm. destruct (monitor_opened _ _ _ _ Hm) as (Hnc & [Hph | (_ & Hin)]);
    [discriminate Hph | auto].
Qed.

(** Before the open the trace holds no engine call and no handler call. *)
Lemma monitor_not_opened (H : option PacketHandler) (ph : phase)
    (t : list (nat * event)) :
  monitor H ph t = Some Not_opened ->
  ph = Not_opened
  /\ engine_calls (map snd t) = []
  /\ deliveries (map snd t) = [].
Proof.
  revert ph; induction t as [|[tid e] t IH]; intros ph; cbn [monitor];
    [intros [= ->]; auto|].
  destruct (monitor_step H ph (tid, e)) as [ph1|] eqn:E; [|discriminate].
  intros Hm. destruct (IH _ Hm) as (-> & Hc & Hd).
  pose proof (monitor_step_phase _ _ _ _ _ E) as Hp.
  destruct e as [d|s|d r|r|h'|r|h'|f p n];
    try (destruct Hp as (_ & _ & Hp); destruct r; discriminate Hp);
    try (destruct Hp as (_ & _ & Hp); discriminate Hp);
    subst ph; try discriminate E; auto.
Qed.

(** Once the engine has been opened, or the open refused, it is not
    opened again. *)
Lemma monitor_no_reopen (H : option PacketHandler) (ph ph' : phase)
    (t : list (nat * event)) :
  monitor H ph t = Some ph' ->
  ph <> Not_opened ->
  forall tid d r, ~ In (tid, Open d r) t.
Proof.
  revert ph; induction t as [|[tid e] t IH]; intros ph; cbn [monitor];
    [intros _ _ tid d r []|].
  destruct (monitor_step H ph (tid, e)) as [ph1|] eqn:E; [|discriminate].
  intros Hm Hne tid' d r [Heq | Hin].
  - injection Heq as -> ->.
    destruct (monitor_step_phase _ _ _ _ _ E) as (Hp & _). exact (Hne Hp).
  - pose proof (monitor_step_phase _ _ _ _ _ E) as Hp.
    apply (IH ph1 Hm) with (tid := tid') (d := d) (r := r); [|exact Hin].
    destruct e; try (subst ph1; exact Hne);
      destruct Hp as (_ & _ & ->); [destruct result|]; discriminate.
Qed.

Lemma demo_observers_ok : Forall is_observer demo_observers.
Proof.
  apply List.Forall_cons; [right; reflexivity|].
  apply List.Forall_cons; [left; reflexivity|].
  apply List.Forall_cons; [right; reflexivity|]. apply List.Forall_nil.
Qed.

Lemma demo_run :
  run demo_schedule (boot (Call_start (Some "lo"%string) (Some 7%nat)
                             :: demo_observers))
  = Some demo_world.
Proof. vm_compute. reflexivity. Qed.

(** X9. In a session with one caller of [start_sniffing] (and any
    threads calling [stop_sniffing] or [is_sniffing_active], interleaved in
    any way, the engine answering anything), every handler call is made by
    the thread of the caller, to the handler the caller passed, after that
    thread has opened the engine and before any handle is closed. *)
Theorem handler_calls_of_session (device : option string)
    (H : option PacketHandler) (observers : list pc)
    (schedule : list (nat * reply)) (w : world)
    (t1 t2 : list (nat * event)) (tid : nat) (f : PacketHandler)
    (p : bytes) (n : Z) :
  Forall is_observer observers ->
  run schedule (boot (Call_start device H :: observers)) = Some w ->
  trace w = t1 ++ (tid, Deliver f p n) :: t2 ->
  tid = 0%nat /\ H = Some f /\ no_close t1
  /\ exists d h, In (0%nat, Open d (Some h)) t1.
Proof.
  intros Hobs Hrun Ht.
  destruct (run_session_ok _ _ _ _ _ Hobs Hrun)
    as (p0 & rest & ph & _ & _ & Hmon & _).
  rewrite Ht in Hmon.
  destruct (monitor_split _ _ _ _ _ _ Hmon) as (ph1 & ph2 & H1 & Hs & _).
  unfold monitor_step in Hs. destruct ph1 as [|h|]; try discriminate Hs.
  destruct (tid =? 0)%nat eqn:E1; [|discriminate Hs].
  destruct (handler_is H f) eqn:E2; [|discriminate Hs].
  apply Nat.eqb_eq in E1. apply handler_is_eq in E2.
  destruct (monitor_opened_from_start _ _ _ H1) as (Hnc & d & Hin).
  repeat split; eauto.
Qed.

Lemma handler_calls_of_session_witness :
  let t1 := take 5 (trace demo_world) in
  let t2 := drop 6 (trace demo_world) in
  Forall is_observer demo_observers
  /\ run demo_schedule (boot (Call_start (Some "lo"%string) (Some 7%nat)
                                :: demo_observers))
     = Some demo_world
  /\ trace demo_world = t1 ++ (0%nat, Deliver 7%nat [Byte.x2a] 60) :: t2
  /\ 0%nat = 0%nat /\ Some 7%nat = Some 7%nat /\ no_close t1
  /\ exists d h, In (0%nat, Open d (Some h)) t1.
Proof.
  intros t1 t2.
  assert (Ht : trace demo_world
               = t1 ++ (0%nat, Deliver 7%nat [Byte.x2a] 60) :: t2)
    by reflexivity.
  split; [exact demo_observers_ok|]. split; [exact demo_run|].
  split; [exact Ht|].
  exact (handler_calls_of_session _ _ _ _ _ _ _ _ _ _ _
           demo_observers_ok demo_run Ht).
Defined.

(** X10. In such a session, a release of the lock that shows the flag
    set shows the session whole: the handle that thread 0 opened, the
    handler the caller passed, and a status that is active. The flag is
    never set without them. *)
Theorem flag_means_session (device : option string)
    (H : option PacketHandler) (observers : list pc)
    (schedule : list (nat * reply)) (w : world) (tid : nat) (s : state) :
  Forall is_observer observers ->
  run schedule (boot (Call_start device H :: observers)) = Some w ->
  In (tid, Unlock s) (trace w) ->
  is_running s = true ->
  exists h f d,
    handle s = Some h /\ globalHandler s = Some f /\ H = Some f
    /\ is_active s = true
    /\ In (0%nat, Open d (Some h)) (trace w).
Proof.
  intros Hobs Hrun Hin Hs.
  destruct (run_session_ok _ _ _ _ _ Hobs Hrun)
    as (p0 & rest & ph & _ & _ & Hmon & _).
  destruct (in_split _ _ Hin) as (t1 & t2 & Ht). rewrite Ht in Hmon.
  destruct (monitor_split _ _ _ _ _ _ Hmon) as (ph1 & ph2 & H1 & Hst & _).
  unfold monitor_step in Hst. rewrite Hs in Hst.
  destruct ph1 as [|h|]; try discriminate Hst.
  destruct (handle s) as [h'|] eqn:Hh; [|discriminate Hst].
  destruct (globalHandler s) as [f|] eqn:Hf; [|discriminate Hst].
  destruct (h =? h')%nat eqn:E1; [|discriminate Hst].
  destruct (handler_is H f) eqn:E2; [|discriminate Hst].
  apply Nat.eqb_eq in E1. apply handler_is_eq in E2. subst h'.
  destruct (monitor_opened_from_start _ _ _ H1) as (_ & d & Hopen).
  exists h, f, d. repeat split; auto.
  - unfold is_active, is_sniffing_active. cbn. rewrite Hs, Hh. reflexivity.
  - rewrite Ht. apply in_or_app. left. exact Hopen.
Qed.

Lemma flag_means_session_witness :
  let s := {| handle := Some 1%nat; globalHandler := Some 7%nat;
              is_running := true |} in
  Forall is_observer demo_observers
  /\ run demo_schedule (boot (Call_start (Some "lo"%string) (Some 7%nat)
                                :: demo_observers))
     = Some demo_world
  /\ In (1%nat, Unlock s) (trace demo_world)
  /\ is_running s = true
  /\ exists h f d,
      handle s = Some h /\ globalHandler s = Some f /\ Some 7%nat = Some f
      /\ is_active s = true
      /\ In (0%nat, Open d (Some h)) (trace demo_world).
Proof.
  intros s.
  assert (Hin : In (1%nat, Unlock s) (trace demo_world))
    by (do 6 right; left; reflexivity).
  split; [exact demo_observers_ok|]. split; [exact demo_run|].
  split; [exact Hin|]. split; [reflexivity|].
  exact (flag_means_session _ _ _ _ _ _ _
           demo_observers_ok demo_run Hin eq_refl).
Defined.

(** X11. In such a session the close is the end of the engine's use: a
    handle that is closed is the one thread 0 opened, it is closed by
    thread 0, nothing was closed before it (so it is closed once), and
    after it the trace holds no engine call (no cancel on the closed
    handle, no second close, no new open) and no handler call. *)
Theorem nothing_after_close (device : option string)
    (H : option PacketHandler) (observers : list pc)
    (schedule : list (nat * reply)) (w : world)
    (t1 t2 : list (nat * event)) (tid : nat) (h : pcap_t) :
  Forall is_observer observers ->
  run schedule (boot (Call_start device H :: observers)) = Some w ->
  trace w = t1 ++ (tid, Close h) :: t2 ->
  tid = 0%nat
  /\ (exists d, In (0%nat, Open d (Some h)) t1)
  /\ no_close t1
  /\ engine_calls (map snd t2) = []
  /\ deliveries (map snd t2) = [].
Proof.
  intros Hobs Hrun Ht.
  destruct (run_session_ok _ _ _ _ _ Hobs Hrun)
    as (p0 & rest & ph & _ & _ & Hmon & _).
  rewrite Ht in Hmon.
  destruct (monitor_split _ _ _ _ _ _ Hmon) as (ph1 & ph2 & H1 & Hs & H2).
  destruct (monitor_step_phase _ _ _ _ _ Hs) as (-> & -> & ->).
  destruct (monitor_opened_from_start _ _ _ H1) as (Hnc & d & Hin).
  destruct (monitor_closed _ _ _ H2) as (_ & Hc & Hd).
  repeat split; eauto.
Qed.

Lemma nothing_after_close_witness :
  let t1 := take 9 (trace demo_world) in
  let t2 := drop 10 (trace demo_world) in
  Forall is_observer demo_observers
  /\ run demo_schedule (boot (Call_start (Some "lo"%string) (Some 7%nat)
                                :: demo_observers))
     = Some demo_world
  /\ trace demo_world = t1 ++ (0%nat, Close 1%nat) :: t2
  /\ 0%nat = 0%nat
  /\ (exists d, In (0%nat, Open d (Some 1%nat)) t1)
  /\ no_close t1
  /\ engine_calls (map snd t2) = []
  /\ deliveries (map snd t2) = [].
Proof.
  intros t1 t2.
  assert (Ht : trace demo_world = t1 ++ (0%nat, Close 1%nat) :: t2)
    by reflexivity.
  split; [exact demo_observers_ok|]. split; [exact demo_run|].
  split; [exact Ht|].
  exact (nothing_after_close _ _ _ _ _ _ _ _ _
           demo_observers_ok demo_run Ht).
Defined.

(** X12. In such a session [stop_sniffing] sends the cancel signal only
    to a handle that exists and is still open: the handle cancelled was
    opened by thread 0 earlier in the trace and no handle has been closed
    by then. *)
Theorem cancel_targets_open_handle (device : option string)
    (H : option PacketHandler) (observers : list pc)
    (schedule : list (nat * reply)) (w : world)
    (t1 t2 : list (nat * event)) (tid : nat) (h : pcap_t) :
  Forall is_observer observers ->
  run schedule (boot (Call_start device H :: observers)) = Some w ->
  trace w = t1 ++ (tid, Break h) :: t2 ->
  (exists d, In (0%nat, Open d (Some h)) t1) /\ no_close t1.
Proof.
  intros Hobs Hrun Ht.
  destruct (run_session_ok _ _ _ _ _ Hobs Hrun)
    as (p0 & rest & ph & _ & _ & Hmon & _).
  rewrite Ht in Hmon.
  destruct (monitor_split _ _ _ _ _ _ Hmon) as (ph1 & ph2 & H1 & Hs & _).
  unfold monitor_step in Hs. destruct ph1 as [|h0|]; try discriminate Hs.
  destruct (h0 =? h)%nat eqn:E; [|discriminate Hs].
  apply Nat.eqb_eq in E. subst h0.
  destruct (monitor_opened_from_start _ _ _ H1) as (Hnc & d & Hin). eauto.
Qed.

Lemma cancel_targets_open_handle_witness :
  let t1 := take 7 (trace demo_world) in
  let t2 := drop 8 (trace demo_world) in
  Forall is_observer demo_observers
  /\ run demo_schedule (boot (Call_start (Some "lo"%string) (Some 7%nat)
                                :: demo_observers))
     = Some demo_world
  /\ trace demo_world = t1 ++ (2%nat, Break 1%nat) :: t2
  /\ (exists d, In (0%nat, Open d (Some 1%nat)) t1)
  /\ no_close t1.
Proof.
  intros t1 t2.
  assert (Ht : trace demo_world = t1 ++ (2%nat, Break 1%nat) :: t2)
    by reflexivity.
  split; [exact demo_observers_ok|]. split; [exact demo_run|].
  split; [exact Ht|].
  exact (cancel_targets_open_handle _ _ _ _ _ _ _ _ _
           demo_observers_ok demo_run Ht).
Defined.

(** X13. In such a session the engine is opened at most once: an open is
    made by thread 0, it is the first engine call of the trace, no handler
    was called before it, and no other open follows. *)
Theorem engine_opened_once (device : option string)
    (H : option PacketHandler) (observers : list pc)
    (schedule : list (nat * reply)) (w : world)
    (t1 t2 : list (nat * event)) (tid : nat) (d : string)
    (r : option pcap_t) :
  Forall is_observer observers ->
  run schedule (boot (Call_start device H :: observers)) = Some w ->
  trace w = t1 ++ (tid, Open d r) :: t2 ->
  tid = 0%nat
  /\ engine_calls (map snd t1) = []
  /\ deliveries (map snd t1) = []
  /\ forall tid' d' r', ~ In (tid', Open d' r') t2.
Proof.
  intros Hobs Hrun Ht.
  destruct (run_session_ok _ _ _ _ _ Hobs Hrun)
    as (p0 & rest & ph & _ & _ & Hmon & _).
  rewrite Ht in Hmon.
  destruct (monitor_split _ _ _ _ _ _ Hmon) as (ph1 & ph2 & H1 & Hs & H2).
  destruct (monitor_step_phase _ _ _ _ _ Hs) as (-> & -> & ->).
  destruct (monitor_not_opened _ _ _ H1) as (_ & Hc & Hd).
  repeat split; auto.
  apply (monitor_no_reopen _ _ _ _ H2). destruct r; discriminate.
Qed.

Lemma engine_opened_once_witness :
  let t1 := take 1 (trace demo_world) in
  let t2 := drop 2 (trace demo_world) in
  Forall is_observer demo_observers
  /\ run demo_schedule (boot (Call_start (Some "lo"%string) (Some 7%nat)
                                :: demo_observers))
     = Some demo_world
  /\ trace demo_world = t1 ++ (0%nat, Open "lo" (Some 1%nat)) :: t2
  /\ 0%nat = 0%nat
  /\ engine_calls (map snd t1) = []
  /\ deliveries (map snd t1) = []
  /\ forall tid' d' r', ~ In (tid', Open d' r') t2.
Proof.
  intros t1 t2.
  assert (Ht : trace demo_world
               = t1 ++ (0%nat, Open "lo" (Some 1%nat)) :: t2)
    by reflexivity.
  split; [exact demo_observers_ok|]. split; [exact demo_run|].
  split; [exact Ht|].
  exact (engine_opened_once _ _ _ _ _ _ _ _ _ _
           demo_observers_ok demo_run Ht).
Defined.

Lemma no_delivery_after_return_witness :
  let w := default (boot [])
             (run (take 11 demo_schedule)
                (boot (Call_start (Some "lo"%string) (Some 7%nat)
                         :: demo_observers))) in
  Forall is_observer demo_observers
  /\ run (take 11 demo_schedule)
       (boot (Call_start (Some "lo"%string) (Some 7%nat) :: demo_observers))
     = Some w
  /\ threads w !! 0%nat = Some (Returned SNIFF_OK)
  /\ run (drop 11 demo_schedule) w = Some demo_world
  /\ globals demo_world = initial_state
  /\ handler_calls (trace demo_world) = handler_calls (trace w).
Proof.
  intros w.
  assert (Hrun : run (take 11 demo_schedule)
                   (boot (Call_start (Some "lo"%string) (Some 7%nat)
                            :: demo_observers)) = Some w)
    by (vm_compute; reflexivity).
  assert (Hret : threads w !! 0%nat = Some (Returned SNIFF_OK))
    by (vm_compute; reflexivity).
  assert (Hrun' : run (drop 11 demo_schedule) w = Some demo_world)
    by (vm_compute; reflexivity).
  split; [exact demo_observers_ok|]. split; [exact Hrun|].
  split; [exact Hret|]. split; [exact Hrun'|].
  exact (ConcurrencyFacts.no_delivery_after_return _ _ _ _ _ _ _ _
           demo_observers_ok Hrun Hret Hrun').
Defined.

End ProtocolFacts.
